(** * python-tx-tftp: the datagram codec and the bootstrap layer

    A shallow embedding of [tftp/datagram.py] (the wire codec of the six
    TFTP packet types) together with the option processing and the TID guard
    of the bootstrap layer, and the properties the specification states
    about them.

    Conventions
    - [bytes] is a Python byte string, a list of [Byte.byte].
    - Python exceptions are values of [tftp_error]; a function that may raise
      returns a [result].
    - An [OrderedDict] is an association list in insertion order. *)

From Stdlib Require Import Strings.Byte Strings.String Strings.Ascii.
From Stdlib Require Import Numbers.DecimalString Numbers.DecimalZ Numbers.DecimalPos.
From Stdlib Require Import List ZArith NArith Lia Bool Arith.
Import ListNotations.

Local Open Scope Z_scope.

(* ##################################################################### *)
(** * Part I: the embedding *)
(* ##################################################################### *)

(* ===================================================================== *)
(** ** Byte strings *)
(* ===================================================================== *)

Definition bytes := list byte.

(** A byte-string literal, [B "octet"] for Python's [b"octet"]. *)
Definition B (s : string) : bytes := list_byte_of_string s.

Definition NUL : byte := x00.

Definition byte_to_Z (c : byte) : Z := Z.of_N (Byte.to_N c).

Definition byte_of_Z (z : Z) : byte :=
  match Byte.of_N (Z.to_N z) with
  | Some c => c
  | None => x00
  end.

Arguments byte_to_Z : simpl never.
Arguments byte_of_Z : simpl never.

Fixpoint bytes_eqb (x y : bytes) : bool :=
  match x, y with
  | [], [] => true
  | c :: x', d :: y' => Byte.eqb c d && bytes_eqb x' y'
  | _, _ => false
  end.

(** [not s] / [if s:] on a byte string: emptiness. *)
Definition is_empty (s : bytes) : bool :=
  match s with
  | [] => true
  | _ :: _ => false
  end.

(** No NUL byte inside a field. *)
Definition nul_free (s : bytes) : bool :=
  forallb (fun c => negb (Byte.eqb c NUL)) s.

(** [bytes.lower()]: the ASCII letters [A]..[Z] are mapped to [a]..[z],
    every other byte is kept. *)
Definition lower_byte (c : byte) : byte :=
  let n := byte_to_Z c in
  if (65 <=? n) && (n <=? 90) then byte_of_Z (n + 32) else c.

Definition lower (s : bytes) : bytes := map lower_byte s.

Definition is_upper_byte (c : byte) : bool :=
  let n := byte_to_Z c in (65 <=? n) && (n <=? 90).

(** A byte string is lowercase when it holds no ASCII capital. *)
Definition is_lowercase (s : bytes) : bool :=
  forallb (fun c => negb (is_upper_byte c)) s.

(** [s.split(b'\x00')]: the fragments between NUL bytes; never empty
    ([b''.split(b'\x00') == [b'']]). *)
Fixpoint split_nul (s : bytes) : list bytes :=
  match s with
  | [] => [[]]
  | c :: r =>
      if Byte.eqb c NUL then [] :: split_nul r
      else match split_nul r with
           | [] => [[c]]
           | h :: t => (c :: h) :: t
           end
  end.

(** [b'\x00'.join(parts)]. *)
Fixpoint join_nul (parts : list bytes) : bytes :=
  match parts with
  | [] => []
  | [p] => p
  | p :: r => p ++ NUL :: join_nul r
  end.

(* ===================================================================== *)
(** ** Errors *)
(* ===================================================================== *)

(** The exceptions of [tftp.errors], plus the two Python exceptions the
    codec lets escape: [struct.error] from [struct.pack] on a number that
    does not fit 16 bits, and [IndexError]. *)
Inductive tftp_error : Type :=
| WireProtocolError
| InvalidOpcodeError (opcode : Z)
| PayloadDecodeError
| InvalidErrorcodeError (errorcode : Z)
| OptionsDecodeError
| StructError
| IndexError.

Inductive result (A : Type) : Type :=
| Ok (a : A)
| Err (e : tftp_error).

Arguments Ok {A} a.
Arguments Err {A} e.

Definition bind {A C : Type} (r : result A) (k : A -> result C) : result C :=
  match r with
  | Ok a => k a
  | Err e => Err e
  end.

Notation "'do' x <- r ; k" := (bind r (fun x => k))
  (at level 10, x name, r at level 100, k at level 200).

(* ===================================================================== *)
(** ** [struct] *)
(* ===================================================================== *)

(** [struct.unpack(b'!H', s)[0]]: exactly two bytes, big-endian;
    [None] stands for [struct.error]. *)
Definition unpack_H (s : bytes) : option Z :=
  match s with
  | [hi; lo] => Some (256 * byte_to_Z hi + byte_to_Z lo)
  | _ => None
  end.

(** [struct.pack(b'!H', n)]: [None] stands for [struct.error], raised when
    [n] is not in [0, 65535]. *)
Definition pack_H (n : Z) : option bytes :=
  if (0 <=? n) && (n <=? 65535)
  then Some [byte_of_Z (n / 256); byte_of_Z (n mod 256)]
  else None.

(** [struct.pack(b'!HH', a, b)]. *)
Definition pack_HH (a n : Z) : option bytes :=
  match pack_H a, pack_H n with
  | Some x, Some y => Some (x ++ y)
  | _, _ => None
  end.

(* ===================================================================== *)
(** ** Constants of [datagram.py] *)
(* ===================================================================== *)

Definition OP_RRQ : Z := 1.
Definition OP_WRQ : Z := 2.
Definition OP_DATA : Z := 3.
Definition OP_ACK : Z := 4.
Definition OP_ERROR : Z := 5.
Definition OP_OACK : Z := 6.

Definition ERR_NOT_DEFINED : Z := 0.
Definition ERR_FILE_NOT_FOUND : Z := 1.
Definition ERR_ACCESS_VIOLATION : Z := 2.
Definition ERR_DISK_FULL : Z := 3.
Definition ERR_ILLEGAL_OP : Z := 4.
Definition ERR_TID_UNKNOWN : Z := 5.
Definition ERR_FILE_EXISTS : Z := 6.
Definition ERR_NO_SUCH_USER : Z := 7.
Definition ERR_TERM_OPTION : Z := 8.

(** The dictionary [errors]: [errors code] is [Some msg] when [code] is a
    key, [None] when [code in errors] is false. *)
Definition errors (code : Z) : option bytes :=
  if code =? ERR_NOT_DEFINED then Some (B "")
  else if code =? ERR_FILE_NOT_FOUND then Some (B "File not found")
  else if code =? ERR_ACCESS_VIOLATION then Some (B "Access violation")
  else if code =? ERR_DISK_FULL then Some (B "Disk full or allocation exceeded")
  else if code =? ERR_ILLEGAL_OP then Some (B "Illegal TFTP operation")
  else if code =? ERR_TID_UNKNOWN then Some (B "Unknown transfer ID")
  else if code =? ERR_FILE_EXISTS then Some (B "File already exists")
  else if code =? ERR_NO_SUCH_USER then Some (B "No such user")
  else if code =? ERR_TERM_OPTION
       then Some (B "Terminate transfer due to option negotiation")
  else None.

(** [split_opcode]: the opcode and the payload of a raw datagram. *)
Definition split_opcode (datagram : bytes) : result (Z * bytes) :=
  match unpack_H (firstn 2 datagram) with
  | Some opcode => Ok (opcode, skipn 2 datagram)
  | None => Err WireProtocolError
  end.

(* ===================================================================== *)
(** ** Ordered dictionaries *)
(* ===================================================================== *)

(** An [OrderedDict] from byte strings to byte strings: the items in
    insertion order, every key once. *)
Definition odict := list (bytes * bytes).

(** [name in options]. *)
Definition odict_mem (name : bytes) (options : odict) : bool :=
  existsb (fun kv => bytes_eqb name (fst kv)) options.

(** [options[name] = value]: an existing key keeps its place and gets the
    new value, a new key goes to the end. *)
Fixpoint odict_set (name value : bytes) (options : odict) : odict :=
  match options with
  | [] => [(name, value)]
  | (k, v) :: r =>
      if bytes_eqb name k then (k, value) :: r
      else (k, v) :: odict_set name value r
  end.

(** [not options]: the dictionary is empty. *)
Definition odict_is_empty (options : odict) : bool :=
  match options with
  | [] => true
  | _ :: _ => false
  end.

Definition odict_keys (options : odict) : list bytes := map fst options.

(** [chain.from_iterable(options.items())]. *)
Fixpoint chain_items (options : odict) : list bytes :=
  match options with
  | [] => []
  | (k, v) :: r => k :: v :: chain_items r
  end.

(* ===================================================================== *)
(** ** Datagrams *)
(* ===================================================================== *)

(** The two subclasses of [RQDatagram]. *)
Inductive rq_class : Type := RRQ | WRQ.

Definition rq_opcode (cls : rq_class) : Z :=
  match cls with
  | RRQ => OP_RRQ
  | WRQ => OP_WRQ
  end.

(** The attributes of a datagram object, by class. *)
Inductive datagram : Type :=
| RQ (cls : rq_class) (filename mode : bytes) (options : odict)
| OACK (options : odict)
| DATA (blocknum : Z) (data : bytes)
| ACK (blocknum : Z)
| ERROR (errorcode : Z) (errmsg : bytes).

(** [RQDatagram.__init__]: the mode is stored lowercased. *)
Definition RQDatagram (cls : rq_class) (filename mode : bytes)
    (options : odict) : datagram :=
  RQ cls filename (lower mode) options.

Definition RRQDatagram := RQDatagram RRQ.
Definition WRQDatagram := RQDatagram WRQ.
Definition OACKDatagram (options : odict) : datagram := OACK options.
Definition DATADatagram (blocknum : Z) (data : bytes) : datagram :=
  DATA blocknum data.
Definition ACKDatagram (blocknum : Z) : datagram := ACK blocknum.
Definition ERRORDatagram (errorcode : Z) (errmsg : bytes) : datagram :=
  ERROR errorcode errmsg.

(** *** Option parsing, shared text of [RQDatagram.from_wire] and
    [OACKDatagram.from_wire] *)

(** [parts[::2]]. *)
Fixpoint stride2 (parts : list bytes) : list bytes :=
  match parts with
  | [] => []
  | [x] => [x]
  | x :: _ :: r => x :: stride2 r
  end.

(** The loop
    [for ind, opt_name in enumerate(parts[::2])]: [names] is what is left of
    [parts[::2]], [ind] the current index. *)
Fixpoint options_loop (parts names : list bytes) (ind : nat)
    (options : odict) : result odict :=
  match names with
  | [] => Ok options
  | opt_name :: names' =>
      if odict_mem opt_name options then Err OptionsDecodeError
      else match nth_error parts (ind * 2 + 1) with
           | Some value =>
               options_loop parts names' (S ind)
                 (odict_set opt_name value options)
           | None => Err IndexError
           end
  end.

(** From [options = OrderedDict()] to the end of the loop. *)
Definition parse_options (parts : list bytes) : result odict :=
  if Nat.odd (length parts) then Err OptionsDecodeError
  else options_loop parts (stride2 parts) 0 [].

(** [while parts and not parts[-1]: parts.pop(-1)], seen from the end of
    the list. *)
Fixpoint drop_empty_prefix (rparts : list bytes) : list bytes :=
  match rparts with
  | [] => []
  | p :: r => if is_empty p then drop_empty_prefix r else rparts
  end.

Definition strip_trailing_empty (parts : list bytes) : list bytes :=
  rev (drop_empty_prefix (rev parts)).

(** [if parts and not parts[-1]: parts.pop(-1)]. *)
Definition pop_trailing_empty (parts : list bytes) : list bytes :=
  match rev parts with
  | [] => parts
  | p :: r => if is_empty p then rev r else parts
  end.

(** [RQDatagram.from_wire], for the class [cls]. *)
Definition RQDatagram_from_wire (cls : rq_class) (payload : bytes)
    : result datagram :=
  match split_nul payload with
  | filename :: mode :: parts =>
      let parts := strip_trailing_empty parts in
      do options <- parse_options parts;
      Ok (RQDatagram cls filename mode options)
  | _ => Err PayloadDecodeError
  end.

(** [OACKDatagram.from_wire]. *)
Definition OACKDatagram_from_wire (payload : bytes) : result datagram :=
  let parts := pop_trailing_empty (split_nul payload) in
  do options <- parse_options parts;
  Ok (OACKDatagram options).

(** [DATADatagram.from_wire]. *)
Definition DATADatagram_from_wire (payload : bytes) : result datagram :=
  match unpack_H (firstn 2 payload) with
  | Some blocknum => Ok (DATADatagram blocknum (skipn 2 payload))
  | None => Err PayloadDecodeError
  end.

(** [ACKDatagram.from_wire]. *)
Definition ACKDatagram_from_wire (payload : bytes) : result datagram :=
  match unpack_H payload with
  | Some blocknum => Ok (ACKDatagram blocknum)
  | None => Err PayloadDecodeError
  end.

(** [payload.split(b'\x00')[0]]. *)
Definition first_fragment (s : bytes) : bytes :=
  match split_nul s with
  | [] => []
  | f :: _ => f
  end.

(** [ERRORDatagram.from_wire]. *)
Definition ERRORDatagram_from_wire (payload : bytes) : result datagram :=
  match unpack_H (firstn 2 payload) with
  | None => Err PayloadDecodeError
  | Some errorcode =>
      match errors errorcode with
      | None => Err (InvalidErrorcodeError errorcode)
      | Some default =>
          let errmsg := first_fragment (skipn 2 payload) in
          let errmsg := if is_empty errmsg then default else errmsg in
          Ok (ERRORDatagram errorcode errmsg)
      end
  end.

(** [ERRORDatagram.from_code]; [errmsg = None] is the omitted argument. *)
Definition ERRORDatagram_from_code (errorcode : Z) (errmsg : option bytes)
    : result datagram :=
  match errors errorcode with
  | None => Err (InvalidErrorcodeError errorcode)
  | Some default =>
      match errmsg with
      | None => Ok (ERRORDatagram errorcode default)
      | Some m => Ok (ERRORDatagram errorcode m)
      end
  end.

Definition lift_pack (o : option bytes) : result bytes :=
  match o with
  | Some s => Ok s
  | None => Err StructError
  end.

(** The [to_wire] method of each class. *)
Definition to_wire (d : datagram) : result bytes :=
  match d with
  | RQ cls filename mode options =>
      do opcode <- lift_pack (pack_H (rq_opcode cls));
      if odict_is_empty options
      then Ok (opcode ++ filename ++ [NUL] ++ mode ++ [NUL])
      else Ok (opcode ++ filename ++ [NUL] ++ mode ++ [NUL]
                 ++ join_nul (chain_items options) ++ [NUL])
  | OACK options =>
      do opcode <- lift_pack (pack_H OP_OACK);
      if odict_is_empty options
      then Ok opcode
      else Ok (opcode ++ join_nul (chain_items options) ++ [NUL])
  | DATA blocknum data =>
      do header <- lift_pack (pack_HH OP_DATA blocknum);
      Ok (header ++ data)
  | ACK blocknum => lift_pack (pack_HH OP_ACK blocknum)
  | ERROR errorcode errmsg =>
      do header <- lift_pack (pack_HH OP_ERROR errorcode);
      Ok (header ++ errmsg ++ [NUL])
  end.

(** [_TFTPDatagramFactory.__call__]: the class of the opcode parses the
    payload. *)
Definition TFTPDatagramFactory (opcode : Z) (payload : bytes)
    : result datagram :=
  if opcode =? OP_RRQ then RQDatagram_from_wire RRQ payload
  else if opcode =? OP_WRQ then RQDatagram_from_wire WRQ payload
  else if opcode =? OP_DATA then DATADatagram_from_wire payload
  else if opcode =? OP_ACK then ACKDatagram_from_wire payload
  else if opcode =? OP_ERROR then ERRORDatagram_from_wire payload
  else if opcode =? OP_OACK then OACKDatagram_from_wire payload
  else Err (InvalidOpcodeError opcode).

(** Decoding a raw datagram, as every caller does:
    [TFTPDatagramFactory( *split_opcode(datagram))]. *)
Definition decode (raw : bytes) : result datagram :=
  do op_payload <- split_opcode raw;
  TFTPDatagramFactory (fst op_payload) (snd op_payload).

Definition encode (d : datagram) : result bytes := to_wire d.

(* ===================================================================== *)
(** ** Vocabulary of the properties *)
(* ===================================================================== *)

(** The name/value pairs of a list of fragments, in order; a last fragment
    without a partner is left out. *)
Fixpoint pairs (parts : list bytes) : odict :=
  match parts with
  | name :: value :: r => (name, value) :: pairs r
  | _ => []
  end.

(** The last fragment exists and is empty. *)
Definition ends_with_empty (parts : list bytes) : bool :=
  match rev parts with
  | [] => false
  | p :: _ => is_empty p
  end.

(** The [mode] attribute of a request datagram. *)
Definition rq_mode (d : datagram) : bytes :=
  match d with
  | RQ _ _ mode _ => mode
  | _ => []
  end.

(** The option parsing of [RQDatagram.from_wire], on the fragments that
    follow the file name and the mode. *)
Definition RQ_options (rest : list bytes) : result odict :=
  parse_options (strip_trailing_empty rest).

(** The option parsing of [OACKDatagram.from_wire], on the fragments of the
    payload. *)
Definition OACK_options (parts : list bytes) : result odict :=
  parse_options (pop_trailing_empty parts).

(** No byte string occurs twice. *)
Fixpoint distinct (l : list bytes) : bool :=
  match l with
  | [] => true
  | x :: r => negb (existsb (bytes_eqb x) r) && distinct r
  end.

(** The options of a packet can be written on the wire: no NUL in a name
    or a value, and every name once. *)
Definition wf_options (options : odict) : bool :=
  forallb (fun kv => nul_free (fst kv) && nul_free (snd kv)) options
  && distinct (odict_keys options).

Definition u16 (n : Z) : bool := (0 <=? n) && (n <=? 65535).

(** A well-formed packet of the data model: fields without NUL, 16-bit
    numbers, an error code of the table. *)
Definition well_formed (p : datagram) : bool :=
  match p with
  | RQ _ filename mode options =>
      nul_free filename && nul_free mode && wf_options options
  | OACK options => wf_options options
  | DATA blocknum _ => u16 blocknum
  | ACK blocknum => u16 blocknum
  | ERROR errorcode errmsg =>
      (0 <=? errorcode) && (errorcode <=? 8) && nul_free errmsg
  end.

(** The packet with the mode of a request lowercased. *)
Definition lowercase_mode (p : datagram) : datagram :=
  match p with
  | RQ cls filename mode options => RQ cls filename (lower mode) options
  | _ => p
  end.

(** What the decoder does not undo: an empty value of the last option of a
    request, and an empty message of an error whose code has a non-empty
    default message. *)
Definition survives_decoding (p : datagram) : bool :=
  match p with
  | RQ _ _ _ options => negb (ends_with_empty (chain_items options))
  | ERROR errorcode errmsg => negb (is_empty errmsg) || (errorcode =? 0)
  | _ => true
  end.

(** The fields of a body as the docstring of [RQDatagram.from_wire] counts
    them ("Fields are terminated by NUL"): one for every NUL byte. *)
Definition terminated_fields (payload : bytes) : nat :=
  length (filter (fun c => Byte.eqb c NUL) payload).

(** The class attribute [opcode] of a datagram object. *)
Definition datagram_opcode (d : datagram) : Z :=
  match d with
  | RQ cls _ _ _ => rq_opcode cls
  | OACK _ => OP_OACK
  | DATA _ _ => OP_DATA
  | ACK _ => OP_ACK
  | ERROR _ _ => OP_ERROR
  end.

(** The bytes the options take on the wire: every name and every value
    with its NUL. *)
Fixpoint options_size (options : odict) : nat :=
  match options with
  | [] => 0
  | (k, v) :: r => (length k + 1 + length v + 1 + options_size r)%nat
  end.

(** The length of the datagram on the wire. *)
Definition wire_size (d : datagram) : nat :=
  match d with
  | RQ _ filename mode options =>
      (2 + length filename + 1 + length mode + 1 + options_size options)%nat
  | OACK options => (2 + options_size options)%nat
  | DATA _ data => (4 + length data)%nat
  | ACK _ => 4%nat
  | ERROR _ errmsg => (4 + length errmsg + 1)%nat
  end.

(** The number that [to_wire] packs after the opcode, when there is one. *)
Definition packed_number (d : datagram) : option Z :=
  match d with
  | DATA blocknum _ => Some blocknum
  | ACK blocknum => Some blocknum
  | ERROR errorcode _ => Some errorcode
  | _ => None
  end.

(* ===================================================================== *)
(** ** The bootstrap layer: option processing *)
(* ===================================================================== *)

(** Modelled from the spec: [tftp/bootstrap.py] ([TFTPBootstrap] with
    [processOptions], [applyOptions] and [datagramReceived]) and
    [tftp/session.py] ([MAX_BLOCK_SIZE]) are not among the sources; only
    their tests are. What follows is written from section 4.4 of the
    specification and from the session double [MockSession] of
    [test_bootstrap.py]. The upper bound of a block size is 65464. *)
Definition MAX_BLOCK_SIZE : Z := 65464.

(** Modelled from the spec: an option value is an integer when it is a
    decimal numeral, with an optional minus sign ([bootstrap.py] is
    missing). *)
Definition parse_int (val : bytes) : option Z :=
  option_map Z.of_int (NilZero.int_of_string (string_of_list_byte val)).

(** Modelled from the spec: the decimal numeral of an integer, the
    [intToBytes] that [test_bootstrap.py] imports from Twisted. *)
Definition intToBytes (n : Z) : bytes :=
  list_byte_of_string (NilZero.string_of_int (Z.to_int n)).

(** Modelled from the spec: [blksize] is an integer in [8, 65464]; a value
    outside the range or a non-integer is dropped; the accepted value is
    capped at [MAX_BLOCK_SIZE] ([bootstrap.py] is missing). The
    specification also says that a value above the maximum is clamped; the
    test [test_blksize] expects 65465 to be dropped, and the range check
    comes first here. *)
Definition option_blksize (val : bytes) : option bytes :=
  match parse_int val with
  | None => None
  | Some n =>
      if (n <? 8) || (65464 <? n) then None
      else Some (intToBytes (Z.min n MAX_BLOCK_SIZE))
  end.

(** Modelled from the spec: [timeout] is an integer in [1, 255]
    ([bootstrap.py] is missing). *)
Definition option_timeout (val : bytes) : option bytes :=
  match parse_int val with
  | None => None
  | Some n => if (n <? 1) || (255 <? n) then None else Some (intToBytes n)
  end.

(** Modelled from the spec: [tsize] is a non-negative integer
    ([bootstrap.py] is missing). *)
Definition option_tsize (val : bytes) : option bytes :=
  match parse_int val with
  | None => None
  | Some n => if n <? 0 then None else Some (intToBytes n)
  end.

(** Modelled from the spec: [processOptions] keeps, in the order the peer
    sent them, the recognised options whose value is valid; unknown names
    and invalid values are left out ([bootstrap.py] is missing). *)
Fixpoint processOptions (options : odict) : odict :=
  match options with
  | [] => []
  | (name, val) :: r =>
      let accepted :=
        if bytes_eqb name (B "blksize") then option_blksize val
        else if bytes_eqb name (B "timeout") then option_timeout val
        else if bytes_eqb name (B "tsize") then option_tsize val
        else None in
      match accepted with
      | Some actual_value => (name, actual_value) :: processOptions r
      | None => processOptions r
      end
  end.

(** The attributes of a session that options change; the class
    [MockSession] of [test_bootstrap.py]. *)
Record Session : Type := {
  block_size : Z;
  timeout : list Z;
  tsize : option Z
}.

Definition MockSession : Session :=
  {| block_size := 512; timeout := [1; 3; 5]; tsize := None |}.

(** Modelled from the spec: one acknowledged option applied to the session
    ([bootstrap.py] is missing). *)
Definition applyOption (s : Session) (kv : bytes * bytes) : Session :=
  match parse_int (snd kv) with
  | None => s
  | Some n =>
      if bytes_eqb (fst kv) (B "blksize")
      then {| block_size := n; timeout := timeout s; tsize := tsize s |}
      else if bytes_eqb (fst kv) (B "timeout")
      then {| block_size := block_size s; timeout := [n; n; n];
              tsize := tsize s |}
      else if bytes_eqb (fst kv) (B "tsize")
      then {| block_size := block_size s; timeout := timeout s;
              tsize := Some n |}
      else s
  end.

(** Modelled from the spec: [applyOptions] applies the acknowledged options
    in order ([bootstrap.py] is missing). *)
Definition applyOptions (s : Session) (options : odict) : Session :=
  fold_left applyOption options s.

(* ===================================================================== *)
(** ** The bootstrap layer: the TID guard *)
(* ===================================================================== *)

(** A peer address, host and port. *)
Definition address : Type := string * Z.

Definition address_eqb (a b : address) : bool :=
  String.eqb (fst a) (fst b) && (snd a =? snd b).

(** [ERRORDatagram.from_code(ERR_TID_UNKNOWN).to_wire()]. *)
Definition tid_unknown_wire : result bytes :=
  do d <- ERRORDatagram_from_code ERR_TID_UNKNOWN None; to_wire d.

Section TIDGuard.

(** The wrapped session ([tftp/session.py], not among the sources): its
    state, and how it takes a decoded datagram of its peer, returning the
    new state and what it writes to the peer. *)
Variable SessionState : Type.
Variable session_datagramReceived :
  SessionState -> datagram -> SessionState * list bytes.

(** A bootstrap bound to the remote TID [remote]. *)
Record Bootstrap : Type := {
  remote : address;
  session : SessionState
}.

(** What the transport was asked to write, and to whom. *)
Definition written : Type := list (bytes * address).

(** Modelled from the spec: [datagramReceived] of the bootstrap
    ([bootstrap.py] is missing). A datagram from another address than the
    bound TID is answered with ERROR 5 to that address and nothing else
    happens; a datagram of the peer that does not decode is dropped;
    any other datagram of the peer goes to the session. *)
Definition datagramReceived (b : Bootstrap) (raw : bytes) (addr : address)
    : Bootstrap * written :=
  if address_eqb addr (remote b) then
    match decode raw with
    | Err _ => (b, [])
    | Ok d =>
        let (s, out) := session_datagramReceived (session b) d in
        ({| remote := remote b; session := s |},
         map (fun w => (w, remote b)) out)
    end
  else
    match tid_unknown_wire with
    | Ok w => (b, [(w, addr)])
    | Err _ => (b, [])
    end.

End TIDGuard.

Arguments remote {SessionState} _.
Arguments session {SessionState} _.
Arguments datagramReceived {SessionState} _ _ _ _.

(* ##################################################################### *)
(** * Part II: properties *)
(* ##################################################################### *)

(* ===================================================================== *)
(** ** Datagrams *)
(* ===================================================================== *)

(** Scenario 1 and 2 of the specification, and a few more, by evaluation. *)
Example decode_rrq_foo_octet :
  decode ([x00; x01] ++ B "foo" ++ [NUL] ++ B "octet" ++ [NUL])
  = Ok (RQ RRQ (B "foo") (B "octet") []).
Proof. reflexivity. Qed.

Example encode_rrq_foo_octet :
  encode (RRQDatagram (B "foo") (B "OCTET") [])
  = Ok ([x00; x01] ++ B "foo" ++ [NUL] ++ B "octet" ++ [NUL]).
Proof. reflexivity. Qed.

Example decode_rrq_blksize :
  decode ([x00; x01] ++ B "f" ++ [NUL] ++ B "octet" ++ [NUL]
            ++ B "blksize" ++ [NUL] ++ B "8" ++ [NUL])
  = Ok (RQ RRQ (B "f") (B "octet") [(B "blksize", B "8")]).
Proof. reflexivity. Qed.

Example decode_rrq_cisco :
  decode ([x00; x01] ++ B "f" ++ [NUL] ++ B "octet" ++ [NUL]
            ++ B "blksize" ++ [NUL] ++ B "8" ++ [NUL; NUL; NUL])
  = Ok (RQ RRQ (B "f") (B "octet") [(B "blksize", B "8")]).
Proof. reflexivity. Qed.

Example decode_rrq_duplicate :
  decode ([x00; x01] ++ B "f" ++ [NUL] ++ B "octet" ++ [NUL]
            ++ B "a" ++ [NUL] ++ B "1" ++ [NUL] ++ B "a" ++ [NUL] ++ B "2" ++ [NUL])
  = Err OptionsDecodeError.
Proof. reflexivity. Qed.

Example decode_bad_opcode : decode [x00; x07; x00] = Err (InvalidOpcodeError 7).
Proof. reflexivity. Qed.

Example decode_short : decode [x00] = Err WireProtocolError.
Proof. reflexivity. Qed.

(* ===================================================================== *)
(** ** Bytes and [struct]: basic facts *)
(* ===================================================================== *)

Lemma byte_to_Z_range (c : byte) : 0 <= byte_to_Z c <= 255.
Proof.
  unfold byte_to_Z. pose proof (Byte.to_N_bounded c). lia.
Qed.

Lemma byte_of_to_Z (c : byte) : byte_of_Z (byte_to_Z c) = c.
Proof.
  unfold byte_of_Z, byte_to_Z. rewrite N2Z.id, Byte.of_to_N. reflexivity.
Qed.

Lemma byte_to_of_Z (z : Z) : 0 <= z <= 255 -> byte_to_Z (byte_of_Z z) = z.
Proof.
  intros Hz. unfold byte_of_Z, byte_to_Z.
  destruct (Byte.of_N (Z.to_N z)) as [c|] eqn:E.
  - apply Byte.to_of_N in E. rewrite E. lia.
  - apply Byte.of_N_None_iff in E. lia.
Qed.

Lemma byte_to_Z_inj (c d : byte) : byte_to_Z c = byte_to_Z d -> c = d.
Proof.
  intros H. rewrite <- (byte_of_to_Z c), <- (byte_of_to_Z d), H. reflexivity.
Qed.

Lemma byte_eqb_refl (c : byte) : Byte.eqb c c = true.
Proof. apply Byte.byte_dec_lb. reflexivity. Qed.

Lemma byte_eqb_eq (c d : byte) : Byte.eqb c d = true <-> c = d.
Proof.
  split; [apply Byte.byte_dec_bl | apply Byte.byte_dec_lb].
Qed.

Lemma bytes_eqb_eq (x y : bytes) : bytes_eqb x y = true <-> x = y.
Proof.
  revert y. induction x as [|c x IH]; intros [|d y]; simpl;
    try (split; [discriminate | discriminate]); try tauto.
  rewrite andb_true_iff, byte_eqb_eq, IH. split.
  - intros [-> ->]. reflexivity.
  - intros [= -> ->]. tauto.
Qed.

Lemma bytes_eqb_refl (x : bytes) : bytes_eqb x x = true.
Proof. apply bytes_eqb_eq. reflexivity. Qed.

Lemma bytes_eqb_neq (x y : bytes) : bytes_eqb x y = false <-> x <> y.
Proof.
  split.
  - intros H E. apply bytes_eqb_eq in E. congruence.
  - intros H. destruct (bytes_eqb x y) eqn:E; [|reflexivity].
    apply bytes_eqb_eq in E. contradiction.
Qed.

Lemma is_empty_true (s : bytes) : is_empty s = true <-> s = [].
Proof. destruct s; simpl; split; congruence. Qed.

Lemma is_empty_false (s : bytes) : is_empty s = false <-> s <> [].
Proof. destruct s; simpl; split; congruence. Qed.

(** Packing a 16-bit number and unpacking it again. *)
Lemma unpack_pack_H (n : Z) :
  0 <= n <= 65535 ->
  exists hi lo, pack_H n = Some [hi; lo] /\ unpack_H [hi; lo] = Some n.
Proof.
  intros Hn. unfold pack_H.
  replace ((0 <=? n) && (n <=? 65535)) with true
    by (symmetry; apply andb_true_iff; split; apply Z.leb_le; lia).
  eexists _, _. split; [reflexivity|]. unfold unpack_H.
  assert (0 <= n / 256 <= 255).
  { assert (n / 256 < 256) by (apply Z.div_lt_upper_bound; lia).
    assert (0 <= n / 256) by (apply Z.div_pos; lia). lia. }
  assert (0 <= n mod 256 <= 255).
  { pose proof (Z.mod_pos_bound n 256). lia. }
  rewrite !byte_to_of_Z by assumption. f_equal.
  pose proof (Z.div_mod n 256). lia.
Qed.

(** Unpacking two bytes and packing the number again. *)
Lemma pack_unpack_H (hi lo : byte) :
  pack_H (256 * byte_to_Z hi + byte_to_Z lo) = Some [hi; lo].
Proof.
  pose proof (byte_to_Z_range hi). pose proof (byte_to_Z_range lo).
  unfold pack_H.
  replace ((0 <=? 256 * byte_to_Z hi + byte_to_Z lo)
           && (256 * byte_to_Z hi + byte_to_Z lo <=? 65535)) with true
    by (symmetry; apply andb_true_iff; split; apply Z.leb_le; lia).
  replace ((256 * byte_to_Z hi + byte_to_Z lo) / 256) with (byte_to_Z hi)
    by (apply Z.div_unique with (r := byte_to_Z lo); lia).
  replace ((256 * byte_to_Z hi + byte_to_Z lo) mod 256) with (byte_to_Z lo)
    by (apply Z.mod_unique with (q := byte_to_Z hi); lia).
  rewrite !byte_of_to_Z. reflexivity.
Qed.

Lemma unpack_H_range (s : bytes) (n : Z) :
  unpack_H s = Some n -> 0 <= n <= 65535.
Proof.
  destruct s as [|hi [|lo [|? ?]]]; unfold unpack_H; try discriminate.
  intros E.
  assert (n = 256 * byte_to_Z hi + byte_to_Z lo) by congruence.
  pose proof (byte_to_Z_range hi). pose proof (byte_to_Z_range lo). lia.
Qed.

(** [unpack_H] succeeds on exactly the two-byte strings. *)
Lemma unpack_H_Some_iff (s : bytes) :
  (exists n, unpack_H s = Some n) <-> length s = 2%nat.
Proof.
  destruct s as [|hi [|lo [|? ?]]]; simpl; split;
    try discriminate; try (intros [? ?]; discriminate); eauto.
Qed.

Lemma unpack_H_firstn_None (s : bytes) :
  unpack_H (firstn 2 s) = None <-> (length s < 2)%nat.
Proof.
  destruct s as [|hi [|lo r]]; simpl; split;
    try discriminate; try lia; reflexivity.
Qed.

(* ===================================================================== *)
(** ** Splitting and joining at NUL *)
(* ===================================================================== *)

Lemma split_nul_not_nil (s : bytes) : split_nul s <> [].
Proof.
  destruct s as [|c r]; simpl; [discriminate|].
  destruct (Byte.eqb c NUL); [discriminate|].
  destruct (split_nul r); discriminate.
Qed.

Lemma split_nul_nul_free (p : bytes) :
  nul_free p = true -> split_nul p = [p].
Proof.
  induction p as [|c p IH]; simpl; [reflexivity|].
  rewrite andb_true_iff, negb_true_iff. intros [Hc Hp].
  rewrite Hc, (IH Hp). reflexivity.
Qed.

Lemma split_nul_app (p s : bytes) :
  nul_free p = true -> split_nul (p ++ NUL :: s) = p :: split_nul s.
Proof.
  induction p as [|c p IH]; simpl; [reflexivity|].
  rewrite andb_true_iff, negb_true_iff. intros [Hc Hp].
  rewrite Hc, (IH Hp). reflexivity.
Qed.

Lemma split_nul_single_nul : split_nul [NUL] = [[]; []].
Proof. reflexivity. Qed.

Lemma split_join_nul (parts : list bytes) :
  parts <> [] -> Forall (fun p => nul_free p = true) parts ->
  split_nul (join_nul parts) = parts.
Proof.
  induction parts as [|p [|q r] IH]; intros Hne Hall.
  - contradiction.
  - simpl. apply split_nul_nul_free. inversion Hall; assumption.
  - inversion Hall as [|? ? Hp Hr]; subst.
    change (join_nul (p :: q :: r)) with (p ++ NUL :: join_nul (q :: r)).
    rewrite split_nul_app by assumption.
    rewrite IH; [reflexivity | discriminate | assumption].
Qed.

Lemma split_join_nul_terminated (parts : list bytes) :
  parts <> [] -> Forall (fun p => nul_free p = true) parts ->
  split_nul (join_nul parts ++ [NUL]) = parts ++ [[]].
Proof.
  induction parts as [|p [|q r] IH]; intros Hne Hall.
  - contradiction.
  - simpl. inversion Hall; subst. rewrite split_nul_app by assumption.
    reflexivity.
  - inversion Hall as [|? ? Hp Hr]; subst.
    change (join_nul (p :: q :: r)) with (p ++ NUL :: join_nul (q :: r)).
    rewrite <- app_assoc, <- app_comm_cons.
    rewrite split_nul_app by assumption.
    rewrite IH; [reflexivity | discriminate | assumption].
Qed.

(** The fragments never contain a NUL. *)
Lemma split_nul_fragments_nul_free (s : bytes) :
  Forall (fun p => nul_free p = true) (split_nul s).
Proof.
  induction s as [|c r IH]; simpl.
  - constructor; [reflexivity | constructor].
  - destruct (Byte.eqb c NUL) eqn:Hc.
    + constructor; [reflexivity | assumption].
    + destruct (split_nul r) as [|h t]; inversion IH; subst;
        constructor; simpl; try rewrite Hc; auto.
Qed.

(** A payload has a single fragment exactly when it has no NUL byte. *)
Lemma split_nul_length_one (s : bytes) :
  (length (split_nul s) < 2)%nat <-> nul_free s = true.
Proof.
  split.
  - induction s as [|c r IH]; simpl; [reflexivity|].
    destruct (Byte.eqb c NUL) eqn:Hc; simpl.
    + pose proof (split_nul_not_nil r). destruct (split_nul r); simpl in *;
        [contradiction | lia].
    + intros H. apply IH. destruct (split_nul r); simpl in *; lia.
  - intros H. rewrite split_nul_nul_free by assumption. simpl. lia.
Qed.

(* ===================================================================== *)
(** ** Option parsing *)
(* ===================================================================== *)

(** Induction two fragments at a time. *)
Lemma pair_induction (P : list bytes -> Prop) :
  P [] -> (forall x, P [x]) ->
  (forall name value r, P r -> P (name :: value :: r)) ->
  forall parts, P parts.
Proof.
  intros Hnil Hone Hstep.
  assert (H : forall parts, P parts /\ forall x, P (x :: parts)).
  { induction parts as [|y parts [IH1 IH2]]; split; auto. }
  intros parts. apply H.
Qed.

Lemma stride2_pairs (parts : list bytes) :
  Nat.even (length parts) = true -> stride2 parts = odict_keys (pairs parts).
Proof.
  induction parts as [| x | name value r IH] using pair_induction;
    simpl; intros H; try discriminate; [reflexivity|].
  f_equal. apply IH. exact H.
Qed.

Lemma chain_items_pairs (options : odict) :
  pairs (chain_items options) = options.
Proof.
  induction options as [|[k v] r IH]; simpl; [reflexivity|].
  rewrite IH. reflexivity.
Qed.

Lemma chain_items_even (options : odict) :
  Nat.even (length (chain_items options)) = true.
Proof.
  induction options as [|[k v] r IH]; simpl; [reflexivity | exact IH].
Qed.

Lemma odict_mem_In (name : bytes) (options : odict) :
  odict_mem name options = true <-> In name (odict_keys options).
Proof.
  unfold odict_mem, odict_keys. rewrite existsb_exists, in_map_iff. split.
  - intros [kv [Hin Heq]]. apply bytes_eqb_eq in Heq. exists kv. auto.
  - intros [kv [Heq Hin]]. exists kv. split; [assumption|].
    apply bytes_eqb_eq. auto.
Qed.

(** Setting a key that is not there yet appends the item. *)
Lemma odict_set_fresh (name value : bytes) (options : odict) :
  odict_mem name options = false ->
  odict_set name value options = options ++ [(name, value)].
Proof.
  induction options as [|[k v] r IH]; simpl; [reflexivity|].
  rewrite orb_false_iff. intros [Hk Hr]. rewrite Hk, (IH Hr). reflexivity.
Qed.

Lemma nth_error_after_prefix (pre : list bytes) (name value : bytes)
    (r : list bytes) (ind : nat) :
  length pre = (ind * 2)%nat ->
  nth_error (pre ++ name :: value :: r) (ind * 2 + 1) = Some value.
Proof.
  intros Hlen. rewrite nth_error_app2 by lia.
  replace (ind * 2 + 1 - length pre)%nat with 1%nat by lia. reflexivity.
Qed.

(** What the loop computes when it runs on the fragments [rest] that follow
    an already consumed prefix [pre], with [options] accumulated so far. *)
Lemma options_loop_spec (rest : list bytes) :
  forall (pre : list bytes) (ind : nat) (options : odict),
    length pre = (ind * 2)%nat ->
    Nat.even (length rest) = true ->
    (NoDup (odict_keys options ++ stride2 rest) ->
     options_loop (pre ++ rest) (stride2 rest) ind options
     = Ok (options ++ pairs rest))
    /\ (~ NoDup (odict_keys options ++ stride2 rest) ->
        NoDup (odict_keys options) ->
        options_loop (pre ++ rest) (stride2 rest) ind options
        = Err OptionsDecodeError).
Proof.
  induction rest as [| x | name value r IH] using pair_induction;
    intros pre ind options Hlen Heven.
  - simpl. rewrite !app_nil_r. split; [reflexivity | tauto].
  - discriminate.
  - cbn [stride2 options_loop pairs].
    destruct (odict_mem name options) eqn:Hmem.
    + apply odict_mem_In in Hmem. split; [|reflexivity].
      intros Hnd. exfalso. apply NoDup_remove_2 in Hnd. apply Hnd.
      apply in_or_app. auto.
    + rewrite nth_error_after_prefix by assumption.
      rewrite odict_set_fresh by assumption.
      assert (Hpre : pre ++ name :: value :: r = (pre ++ [name; value]) ++ r)
        by (rewrite <- app_assoc; reflexivity).
      assert (Hkeys : odict_keys (options ++ [(name, value)])
                      = odict_keys options ++ [name])
        by (unfold odict_keys; rewrite map_app; reflexivity).
      assert (Happ : (odict_keys options ++ [name]) ++ stride2 r
                     = odict_keys options ++ name :: stride2 r)
        by (rewrite <- app_assoc; reflexivity).
      destruct (IH (pre ++ [name; value]) (S ind) (options ++ [(name, value)]))
        as [IHok IHdup].
      { rewrite length_app, Hlen. simpl. lia. }
      { exact Heven. }
      rewrite Hpre. rewrite Hkeys, Happ in IHok, IHdup. split.
      * intros Hnd. rewrite (IHok Hnd), <- app_assoc. reflexivity.
      * intros Hnd Hacc. apply IHdup; [assumption|].
        apply NoDup_app; [assumption | repeat constructor; auto |].
        intros k Hk [<-|[]]. apply odict_mem_In in Hk. congruence.
Qed.

(** The three outcomes of [parse_options]. *)
Lemma parse_options_odd (parts : list bytes) :
  Nat.odd (length parts) = true -> parse_options parts = Err OptionsDecodeError.
Proof. unfold parse_options. intros ->. reflexivity. Qed.

Lemma parse_options_ok (parts : list bytes) :
  Nat.odd (length parts) = false -> NoDup (stride2 parts) ->
  parse_options parts = Ok (pairs parts).
Proof.
  intros Hodd Hnd. unfold parse_options. rewrite Hodd.
  assert (Heven : Nat.even (length parts) = true)
    by (rewrite <- Nat.negb_odd, Hodd; reflexivity).
  destruct (options_loop_spec parts [] 0 [] eq_refl Heven) as [Hok _].
  apply Hok. exact Hnd.
Qed.

Lemma parse_options_dup (parts : list bytes) :
  Nat.odd (length parts) = false -> ~ NoDup (stride2 parts) ->
  parse_options parts = Err OptionsDecodeError.
Proof.
  intros Hodd Hnd. unfold parse_options. rewrite Hodd.
  assert (Heven : Nat.even (length parts) = true)
    by (rewrite <- Nat.negb_odd, Hodd; reflexivity).
  destruct (options_loop_spec parts [] 0 [] eq_refl Heven) as [_ Hdup].
  apply Hdup; [exact Hnd | constructor].
Qed.

Lemma bytes_eq_dec (x y : bytes) : {x = y} + {x <> y}.
Proof. apply list_eq_dec, Byte.byte_eq_dec. Qed.

Lemma NoDup_bytes_dec (l : list bytes) : {NoDup l} + {~ NoDup l}.
Proof.
  induction l as [|x l [IH|IH]].
  - left. constructor.
  - destruct (in_dec bytes_eq_dec x l) as [Hin|Hin].
    + right. intros H. inversion H. contradiction.
    + left. constructor; assumption.
  - right. intros H. inversion H. contradiction.
Qed.

(** [parse_options] fails exactly on an odd number of fragments or a
    repeated name, and only with an options-decode error. *)
Lemma parse_options_Err_iff (parts : list bytes) (e : tftp_error) :
  parse_options parts = Err e <->
  e = OptionsDecodeError
  /\ (Nat.odd (length parts) = true \/ ~ NoDup (stride2 parts)).
Proof.
  destruct (Nat.odd (length parts)) eqn:Hodd.
  - rewrite parse_options_odd by assumption. split.
    + intros [= <-]. auto.
    + intros [-> _]. reflexivity.
  - destruct (NoDup_bytes_dec (stride2 parts)) as [Hnd|Hnd].
    + rewrite parse_options_ok by assumption. split; [discriminate|].
      intros [_ [H|H]]; [discriminate | contradiction].
    + rewrite parse_options_dup by assumption. split.
      * intros [= <-]. auto.
      * intros [-> _]. reflexivity.
Qed.

Lemma parse_options_Ok_iff (parts : list bytes) (options : odict) :
  parse_options parts = Ok options <->
  Nat.odd (length parts) = false /\ NoDup (stride2 parts)
  /\ options = pairs parts.
Proof.
  destruct (Nat.odd (length parts)) eqn:Hodd.
  - rewrite parse_options_odd by assumption. split; [discriminate|].
    intros [H _]. discriminate.
  - destruct (NoDup_bytes_dec (stride2 parts)) as [Hnd|Hnd].
    + rewrite parse_options_ok by assumption. split.
      * intros [= <-]. auto.
      * intros [_ [_ ->]]. reflexivity.
    + rewrite parse_options_dup by assumption. split; [discriminate|].
      intros [_ [H _]]. contradiction.
Qed.

(* ===================================================================== *)
(** ** Trailing empty fragments *)
(* ===================================================================== *)

Lemma drop_empty_prefix_spec (rparts : list bytes) :
  exists k, rparts = repeat [] k ++ drop_empty_prefix rparts
            /\ match drop_empty_prefix rparts with
               | [] => True
               | p :: _ => is_empty p = false
               end.
Proof.
  induction rparts as [|p r [k [Hk Hhd]]]; simpl.
  - exists 0%nat. auto.
  - destruct (is_empty p) eqn:Hp.
    + exists (S k). apply is_empty_true in Hp. subst p. simpl.
      split; [f_equal; exact Hk | exact Hhd].
    + exists 0%nat. simpl. auto.
Qed.

(** [strip_trailing_empty] removes every trailing empty fragment and
    nothing else. *)
Lemma strip_trailing_empty_spec (parts : list bytes) :
  (exists k, parts = strip_trailing_empty parts ++ repeat [] k)
  /\ ends_with_empty (strip_trailing_empty parts) = false.
Proof.
  unfold strip_trailing_empty, ends_with_empty.
  destruct (drop_empty_prefix_spec (rev parts)) as [k [Hk Hhd]]. split.
  - exists k. rewrite <- (rev_involutive parts) at 1.
    rewrite Hk at 1. rewrite rev_app_distr, rev_repeat. reflexivity.
  - rewrite rev_involutive. destruct (drop_empty_prefix (rev parts));
      [reflexivity | exact Hhd].
Qed.

Lemma strip_trailing_empty_fixed (parts : list bytes) :
  ends_with_empty parts = false -> strip_trailing_empty parts = parts.
Proof.
  unfold ends_with_empty, strip_trailing_empty. intros H.
  destruct (rev parts) as [|p r] eqn:E.
  - simpl. apply (f_equal (@rev bytes)) in E. rewrite rev_involutive in E.
    symmetry. exact E.
  - simpl. rewrite H. rewrite <- E. apply rev_involutive.
Qed.

Lemma strip_trailing_empty_app_empty (parts : list bytes) :
  strip_trailing_empty (parts ++ [[]]) = strip_trailing_empty parts.
Proof.
  unfold strip_trailing_empty. rewrite rev_app_distr. reflexivity.
Qed.

Lemma strip_trailing_empty_single : strip_trailing_empty [[]] = [].
Proof. reflexivity. Qed.

Lemma pop_trailing_empty_app_empty (parts : list bytes) :
  pop_trailing_empty (parts ++ [[]]) = parts.
Proof.
  unfold pop_trailing_empty. rewrite rev_app_distr. simpl.
  apply rev_involutive.
Qed.

Lemma pop_trailing_empty_fixed (parts : list bytes) :
  ends_with_empty parts = false -> pop_trailing_empty parts = parts.
Proof.
  unfold ends_with_empty, pop_trailing_empty.
  destruct (rev parts) as [|p r]; [reflexivity|]. intros ->. reflexivity.
Qed.

(** Removing one trailing empty fragment is enough when no second one
    follows. *)
Lemma strip_is_pop (parts : list bytes) :
  ends_with_empty (pop_trailing_empty parts) = false ->
  strip_trailing_empty parts = pop_trailing_empty parts.
Proof.
  intros H. unfold pop_trailing_empty in *.
  destruct (rev parts) as [|p r] eqn:E.
  - apply strip_trailing_empty_fixed. exact H.
  - destruct (is_empty p) eqn:Hp.
    + unfold strip_trailing_empty. rewrite E. simpl. rewrite Hp.
      pose proof (strip_trailing_empty_fixed (rev r) H) as F.
      unfold strip_trailing_empty in F. rewrite rev_involutive in F. exact F.
    + apply strip_trailing_empty_fixed. exact H.
Qed.

(* ===================================================================== *)
(** ** Lowercasing *)
(* ===================================================================== *)

Lemma lower_byte_not_upper (c : byte) : is_upper_byte (lower_byte c) = false.
Proof.
  unfold lower_byte, is_upper_byte.
  destruct ((65 <=? byte_to_Z c) && (byte_to_Z c <=? 90)) eqn:E; [|exact E].
  apply andb_true_iff in E. destruct E as [E1 E2].
  apply Z.leb_le in E1, E2.
  rewrite byte_to_of_Z by lia.
  apply andb_false_iff. right. apply Z.leb_gt. lia.
Qed.

Lemma lower_is_lowercase (s : bytes) : is_lowercase (lower s) = true.
Proof.
  unfold is_lowercase, lower. induction s as [|c s IH]; simpl; [reflexivity|].
  rewrite lower_byte_not_upper, IH. reflexivity.
Qed.

Lemma lower_byte_fixed (c : byte) :
  is_upper_byte c = false -> lower_byte c = c.
Proof. unfold lower_byte, is_upper_byte. intros ->. reflexivity. Qed.

Lemma lower_fixed (s : bytes) : is_lowercase s = true -> lower s = s.
Proof.
  unfold is_lowercase, lower. induction s as [|c s IH]; simpl; [reflexivity|].
  rewrite andb_true_iff, negb_true_iff. intros [Hc Hs].
  rewrite (lower_byte_fixed c Hc), (IH Hs). reflexivity.
Qed.

Lemma lower_idempotent (s : bytes) : lower (lower s) = lower s.
Proof. apply lower_fixed, lower_is_lowercase. Qed.

Lemma lower_byte_nul (c : byte) :
  Byte.eqb (lower_byte c) NUL = Byte.eqb c NUL.
Proof.
  unfold lower_byte.
  destruct ((65 <=? byte_to_Z c) && (byte_to_Z c <=? 90)) eqn:E;
    [|reflexivity].
  apply andb_true_iff in E. destruct E as [E1 E2].
  apply Z.leb_le in E1, E2.
  assert (H1 : Byte.eqb c NUL = false).
  { destruct (Byte.eqb c NUL) eqn:H; [|reflexivity].
    apply byte_eqb_eq in H. subst c. vm_compute in E1. contradiction. }
  rewrite H1. destruct (Byte.eqb (byte_of_Z (byte_to_Z c + 32)) NUL) eqn:H;
    [|reflexivity].
  apply byte_eqb_eq in H. apply (f_equal byte_to_Z) in H.
  rewrite byte_to_of_Z in H by lia. change (byte_to_Z NUL) with 0 in H. lia.
Qed.

Lemma lower_nul_free (s : bytes) : nul_free (lower s) = nul_free s.
Proof.
  unfold nul_free, lower. induction s as [|c s IH]; simpl; [reflexivity|].
  rewrite lower_byte_nul, IH. reflexivity.
Qed.

(* ===================================================================== *)
(** ** ACK and DATA *)
(* ===================================================================== *)

(** C7. [ACKDatagram.from_wire] succeeds exactly on the payloads of two
    bytes, and then returns the big-endian block number; on a payload of
    any other length, shorter or longer, it raises a payload-decode
    error. *)
Theorem ACKDatagram_from_wire_two_bytes (payload : bytes) :
  (length payload = 2%nat ->
   exists hi lo,
     payload = [hi; lo]
     /\ ACKDatagram_from_wire payload
        = Ok (ACK (256 * byte_to_Z hi + byte_to_Z lo)))
  /\ (length payload <> 2%nat ->
      ACKDatagram_from_wire payload = Err PayloadDecodeError).
Proof.
  unfold ACKDatagram_from_wire, ACKDatagram.
  destruct payload as [|hi [|lo [|c r]]]; cbn [length unpack_H]; split;
    intros H; try reflexivity; try discriminate; try contradiction.
  exists hi, lo. split; reflexivity.
Qed.

Lemma ACKDatagram_from_wire_two_bytes_witness :
  ACKDatagram_from_wire [x01; x02] = Ok (ACK 258)
  /\ ACKDatagram_from_wire [x01; x02; x03] = Err PayloadDecodeError
  /\ ACKDatagram_from_wire [x01] = Err PayloadDecodeError.
Proof.
  split; [|split].
  - destruct (proj1 (ACKDatagram_from_wire_two_bytes [x01; x02]) eq_refl)
      as [hi [lo [E H]]].
    injection E as <- <-. exact H.
  - apply (proj2 (ACKDatagram_from_wire_two_bytes [x01; x02; x03])).
    simpl. lia.
  - apply (proj2 (ACKDatagram_from_wire_two_bytes [x01])). simpl. lia.
Defined.

(** C9. For a payload of at least two bytes, encoding the DATA datagram
    that [DATADatagram.from_wire] returns gives back the opcode 3 (two
    bytes, big-endian) followed by the payload, whatever the block number
    and the length of the data; a payload shorter than two bytes raises a
    payload-decode error. *)
Theorem DATADatagram_reencode (payload : bytes) :
  ((2 <= length payload)%nat ->
   exists hi lo data,
     payload = hi :: lo :: data
     /\ DATADatagram_from_wire payload
        = Ok (DATA (256 * byte_to_Z hi + byte_to_Z lo) data)
     /\ (do d <- DATADatagram_from_wire payload; to_wire d)
        = Ok ([x00; x03] ++ payload))
  /\ ((length payload < 2)%nat ->
      DATADatagram_from_wire payload = Err PayloadDecodeError).
Proof.
  unfold DATADatagram_from_wire, DATADatagram.
  destruct payload as [|hi [|lo data]]; cbn [length firstn skipn unpack_H];
    split; intros H; try reflexivity; try lia.
  exists hi, lo, data. split; [reflexivity|]. split; [reflexivity|].
  cbn [bind to_wire]. unfold pack_HH.
  rewrite pack_unpack_H. reflexivity.
Qed.

Lemma DATADatagram_reencode_witness :
  (do d <- DATADatagram_from_wire ([xff; xff] ++ B "foobar"); to_wire d)
  = Ok ([x00; x03] ++ [xff; xff] ++ B "foobar")
  /\ DATADatagram_from_wire [x07] = Err PayloadDecodeError.
Proof.
  split.
  - destruct (proj1 (DATADatagram_reencode ([xff; xff] ++ B "foobar")))
      as [hi [lo [data [_ [_ H]]]]]; [simpl; lia | exact H].
  - apply (proj2 (DATADatagram_reencode [x07])). simpl. lia.
Defined.

(* ===================================================================== *)
(** ** ERROR *)
(* ===================================================================== *)

Lemma errors_Some_iff (code : Z) :
  (exists msg, errors code = Some msg) <-> 0 <= code <= 8.
Proof.
  unfold errors, ERR_NOT_DEFINED, ERR_FILE_NOT_FOUND, ERR_ACCESS_VIOLATION,
    ERR_DISK_FULL, ERR_ILLEGAL_OP, ERR_TID_UNKNOWN, ERR_FILE_EXISTS,
    ERR_NO_SUCH_USER, ERR_TERM_OPTION.
  repeat match goal with
         | |- context [?a =? ?b] => destruct (Z.eqb_spec a b)
         end; split; intros H; eauto; try lia;
    destruct H as [? H]; discriminate.
Qed.

Lemma errors_None_iff (code : Z) :
  errors code = None <-> ~ 0 <= code <= 8.
Proof.
  rewrite <- errors_Some_iff. destruct (errors code) as [msg|]; split.
  - discriminate.
  - intros H. exfalso. apply H. eauto.
  - intros _ [msg H]. discriminate.
  - reflexivity.
Qed.

(** The message field is absent (nothing follows the code) or empty (a NUL
    follows the code at once) exactly when the first fragment is empty. *)
Lemma first_fragment_empty_iff (s : bytes) :
  first_fragment s = [] <-> s = [] \/ exists r, s = NUL :: r.
Proof.
  unfold first_fragment. destruct s as [|c r]; simpl.
  - tauto.
  - destruct (Byte.eqb c NUL) eqn:Hc.
    + apply byte_eqb_eq in Hc. subst c. split; eauto.
    + split.
      * destruct (split_nul r); discriminate.
      * intros [H|[r' H]]; [discriminate|].
        injection H as -> _. rewrite byte_eqb_refl in Hc. discriminate.
Qed.

(** C6. [ERRORDatagram.from_wire] raises an invalid-errorcode error exactly
    when the two-byte big-endian code is outside 0..8; with a valid code and
    an absent or empty message the datagram carries the default message of
    the table [errors] for that code, and a non-empty message is kept. The
    table is the nine fixed strings. *)
Theorem ERRORDatagram_from_wire_spec (payload : bytes) (code : Z) :
  unpack_H (firstn 2 payload) = Some code ->
  ((exists c, ERRORDatagram_from_wire payload = Err (InvalidErrorcodeError c))
   <-> ~ 0 <= code <= 8)
  /\ (0 <= code <= 8 ->
      (skipn 2 payload = [] \/ exists r, skipn 2 payload = NUL :: r) ->
      exists default,
        errors code = Some default
        /\ ERRORDatagram_from_wire payload = Ok (ERROR code default))
  /\ (0 <= code <= 8 ->
      first_fragment (skipn 2 payload) <> [] ->
      ERRORDatagram_from_wire payload
      = Ok (ERROR code (first_fragment (skipn 2 payload))))
  /\ errors 0 = Some (B "")
  /\ errors 1 = Some (B "File not found")
  /\ errors 2 = Some (B "Access violation")
  /\ errors 3 = Some (B "Disk full or allocation exceeded")
  /\ errors 4 = Some (B "Illegal TFTP operation")
  /\ errors 5 = Some (B "Unknown transfer ID")
  /\ errors 6 = Some (B "File already exists")
  /\ errors 7 = Some (B "No such user")
  /\ errors 8 = Some (B "Terminate transfer due to option negotiation").
Proof.
  intros Hcode. unfold ERRORDatagram_from_wire, ERRORDatagram.
  rewrite Hcode.
  split; [|split; [|split; [|repeat split]]].
  - destruct (errors code) as [default|] eqn:E.
    + split.
      * intros [c H]. discriminate.
      * intros H. exfalso. apply H. apply errors_Some_iff. eauto.
    + split.
      * intros _. apply errors_None_iff. exact E.
      * intros _. eauto.
  - intros Hrange Hmsg.
    destruct (proj2 (errors_Some_iff code) Hrange) as [default E].
    exists default. rewrite E. split; [reflexivity|].
    apply first_fragment_empty_iff in Hmsg. rewrite Hmsg. reflexivity.
  - intros Hrange Hmsg.
    destruct (proj2 (errors_Some_iff code) Hrange) as [default E].
    rewrite E. apply is_empty_false in Hmsg. rewrite Hmsg. reflexivity.
Qed.

Lemma ERRORDatagram_from_wire_spec_witness :
  ERRORDatagram_from_wire [x00; x05]
  = Ok (ERROR 5 (B "Unknown transfer ID"))
  /\ ERRORDatagram_from_wire ([x00; x02] ++ B "nope" ++ [NUL])
     = Ok (ERROR 2 (B "nope"))
  /\ exists c, ERRORDatagram_from_wire [x00; x09; NUL]
               = Err (InvalidErrorcodeError c).
Proof.
  split; [|split].
  - destruct (ERRORDatagram_from_wire_spec [x00; x05] 5 eq_refl)
      as [_ [H _]].
    destruct H as [default [E H]]; [lia | left; reflexivity |].
    injection E as <-. exact H.
  - destruct (ERRORDatagram_from_wire_spec
                ([x00; x02] ++ B "nope" ++ [NUL]) 2 eq_refl)
      as [_ [_ [H _]]].
    apply H; [lia | discriminate].
  - destruct (ERRORDatagram_from_wire_spec [x00; x09; NUL] 9 eq_refl)
      as [H _].
    apply H. lia.
Defined.

(** A payload too short to hold a code raises a payload-decode error, never
    an invalid-errorcode error. *)
Lemma ERRORDatagram_from_wire_short (payload : bytes) :
  (length payload < 2)%nat ->
  ERRORDatagram_from_wire payload = Err PayloadDecodeError.
Proof.
  intros H. apply unpack_H_firstn_None in H.
  unfold ERRORDatagram_from_wire. rewrite H. reflexivity.
Qed.

(* ===================================================================== *)
(** ** The mode of a request *)
(* ===================================================================== *)

(** C10. A request datagram built by the constructor, directly or through
    [from_wire], has a lowercase mode, and [to_wire] writes the lowercased
    mode between the file name and the options, whatever the case of the
    mode the caller gave. *)
Theorem RQDatagram_mode_is_lowercase (cls : rq_class)
    (filename mode : bytes) (options : odict) :
  is_lowercase (rq_mode (RQDatagram cls filename mode options)) = true
  /\ rq_mode (RQDatagram cls filename mode options) = lower mode
  /\ (exists tail,
        to_wire (RQDatagram cls filename mode options)
        = Ok ([x00; byte_of_Z (rq_opcode cls)] ++ filename ++ [NUL]
                ++ lower mode ++ [NUL] ++ tail))
  /\ (forall payload d,
        RQDatagram_from_wire cls payload = Ok d ->
        is_lowercase (rq_mode d) = true).
Proof.
  split; [|split; [|split]].
  - apply lower_is_lowercase.
  - reflexivity.
  - unfold RQDatagram. cbn [to_wire].
    assert (Hop : pack_H (rq_opcode cls) = Some [x00; byte_of_Z (rq_opcode cls)])
      by (destruct cls; reflexivity).
    rewrite Hop. cbn [lift_pack bind].
    destruct (odict_is_empty options).
    + exists []. reflexivity.
    + eexists. reflexivity.
  - intros payload d. unfold RQDatagram_from_wire.
    destruct (split_nul payload) as [|f [|m parts]]; try discriminate.
    destruct (parse_options (strip_trailing_empty parts)); cbn [bind];
      [|discriminate].
    intros [= <-]. apply lower_is_lowercase.
Qed.

Example RQDatagram_to_wire_mixed_case :
  to_wire (RRQDatagram (B "foo") (B "NetASCII") [(B "blksize", B "8")])
  = Ok ([x00; x01] ++ B "foo" ++ [NUL] ++ B "netascii" ++ [NUL]
          ++ B "blksize" ++ [NUL] ++ B "8" ++ [NUL]).
Proof. reflexivity. Qed.

(* ===================================================================== *)
(** ** Requests: decoding the body *)
(* ===================================================================== *)

Lemma RQDatagram_from_wire_fields (cls : rq_class) (payload : bytes)
    (filename mode : bytes) (rest : list bytes) :
  split_nul payload = filename :: mode :: rest ->
  RQDatagram_from_wire cls payload
  = do options <- RQ_options rest; Ok (RQDatagram cls filename mode options).
Proof.
  intros H. unfold RQDatagram_from_wire, RQ_options. rewrite H. reflexivity.
Qed.

(** A body written as file name, NUL, mode, NUL and a remainder. *)
Lemma RQDatagram_from_wire_body (cls : rq_class)
    (filename mode remainder : bytes) :
  nul_free filename = true -> nul_free mode = true ->
  RQDatagram_from_wire cls (filename ++ NUL :: mode ++ NUL :: remainder)
  = do options <- RQ_options (split_nul remainder);
    Ok (RQDatagram cls filename mode options).
Proof.
  intros Hf Hm. apply RQDatagram_from_wire_fields.
  rewrite split_nul_app by assumption.
  rewrite split_nul_app by assumption. reflexivity.
Qed.

Lemma OACKDatagram_from_wire_options (payload : bytes) :
  OACKDatagram_from_wire payload
  = do options <- OACK_options (split_nul payload); Ok (OACK options).
Proof. reflexivity. Qed.

(** What [RQDatagram.from_wire] does, with the body split at NUL into
    fragments as [payload.split] gives them: fewer than two fragments, that
    is a body without any NUL, raise a payload-decode error (and nothing
    else does); otherwise every trailing empty fragment after the mode is
    removed, an options-decode error is raised exactly when the number of
    fragments left is odd or a name occurs twice, and in the remaining case
    the datagram holds the name/value pairs in order. *)
Theorem RQDatagram_from_wire_spec (cls : rq_class) (payload : bytes) :
  (RQDatagram_from_wire cls payload = Err PayloadDecodeError
   <-> (length (split_nul payload) < 2)%nat)
  /\ forall filename mode rest,
      split_nul payload = filename :: mode :: rest ->
      let parts := strip_trailing_empty rest in
      (exists k, rest = parts ++ repeat [] k)
      /\ ends_with_empty parts = false
      /\ (RQDatagram_from_wire cls payload = Err OptionsDecodeError
          <-> Nat.odd (length parts) = true \/ ~ NoDup (stride2 parts))
      /\ (Nat.odd (length parts) = false -> NoDup (stride2 parts) ->
          RQDatagram_from_wire cls payload
          = Ok (RQDatagram cls filename mode (pairs parts))).
Proof.
  split.
  - unfold RQDatagram_from_wire.
    pose proof (split_nul_not_nil payload) as Hne.
    destruct (split_nul payload) as [|f [|m rest]]; simpl.
    + contradiction.
    + split; [lia | reflexivity].
    + split; [|lia].
      destruct (parse_options (strip_trailing_empty rest)) as [o|e] eqn:E;
        cbn [bind]; [discriminate|].
      apply parse_options_Err_iff in E. destruct E as [-> _]. discriminate.
  - intros filename mode rest Hsplit parts.
    destruct (strip_trailing_empty_spec rest) as [Hk Hend].
    split; [exact Hk|]. split; [exact Hend|].
    rewrite (RQDatagram_from_wire_fields cls payload filename mode rest Hsplit).
    unfold RQ_options. fold parts. split.
    + destruct (parse_options parts) as [o|e] eqn:E; cbn [bind].
      * apply parse_options_Ok_iff in E. destruct E as [Hodd [Hnd _]].
        split; [discriminate|]. intros [H|H]; [congruence | contradiction].
      * apply parse_options_Err_iff in E. destruct E as [-> H].
        split; auto.
    + intros Hodd Hnd. rewrite parse_options_ok by assumption. reflexivity.
Qed.

Lemma RQDatagram_from_wire_spec_witness :
  RQDatagram_from_wire WRQ
    (B "f" ++ [NUL] ++ B "Octet" ++ [NUL] ++ B "tsize" ++ [NUL] ++ B "45"
       ++ [NUL; NUL; NUL])
  = Ok (RQ WRQ (B "f") (B "octet") [(B "tsize", B "45")]).
Proof.
  destruct (RQDatagram_from_wire_spec WRQ
              (B "f" ++ [NUL] ++ B "Octet" ++ [NUL] ++ B "tsize" ++ [NUL]
                 ++ B "45" ++ [NUL; NUL; NUL])) as [_ H].
  destruct (H (B "f") (B "Octet") [B "tsize"; B "45"; []; []; []] eq_refl)
    as [_ [_ [_ Hok]]].
  apply Hok.
  - reflexivity.
  - simpl. repeat constructor. intros [].
Defined.

Example RQDatagram_from_wire_no_fields :
  RQDatagram_from_wire RRQ (B "foo") = Err PayloadDecodeError.
Proof. reflexivity. Qed.

Example RQDatagram_from_wire_missing_value :
  RQDatagram_from_wire RRQ
    (B "foo" ++ [NUL] ++ B "octet" ++ [NUL] ++ B "blksize" ++ [NUL])
  = Err OptionsDecodeError.
Proof. reflexivity. Qed.

Lemma terminated_fields_nul_free (s : bytes) :
  nul_free s = true -> terminated_fields s = 0%nat.
Proof.
  unfold terminated_fields, nul_free.
  induction s as [|c s IH]; cbn [forallb filter]; [reflexivity|].
  rewrite andb_true_iff, negb_true_iff. intros [Hc Hs].
  rewrite Hc. apply IH. exact Hs.
Qed.

Lemma terminated_fields_app (s t : bytes) :
  terminated_fields (s ++ t)
  = (terminated_fields s + terminated_fields t)%nat.
Proof.
  unfold terminated_fields. rewrite filter_app, length_app. reflexivity.
Qed.

(** C5. The claim, like the docstring of [RQDatagram.from_wire], promises a
    payload-decode error for a body with fewer than two NUL-terminated
    fields. The code does not raise it for a body with one: a file name, a
    NUL, and then nothing or a mode without its NUL is decoded as a request
    with that (possibly empty) mode and no option. *)
Theorem RQDatagram_from_wire_single_field (cls : rq_class)
    (filename mode : bytes) :
  nul_free filename = true -> nul_free mode = true ->
  terminated_fields (filename ++ NUL :: mode) = 1%nat
  /\ RQDatagram_from_wire cls (filename ++ NUL :: mode)
     = Ok (RQ cls filename (lower mode) [])
  /\ RQDatagram_from_wire cls (filename ++ NUL :: mode)
     <> Err PayloadDecodeError.
Proof.
  intros Hf Hm.
  assert (Hfields : terminated_fields (filename ++ NUL :: mode) = 1%nat).
  { change (NUL :: mode) with ([NUL] ++ mode).
    rewrite !terminated_fields_app.
    rewrite (terminated_fields_nul_free filename Hf).
    rewrite (terminated_fields_nul_free mode Hm). reflexivity. }
  assert (Hdec : RQDatagram_from_wire cls (filename ++ NUL :: mode)
                 = Ok (RQ cls filename (lower mode) [])).
  { unfold RQDatagram_from_wire.
    rewrite split_nul_app by assumption.
    rewrite split_nul_nul_free by assumption. reflexivity. }
  split; [exact Hfields|]. split; [exact Hdec|].
  rewrite Hdec. discriminate.
Qed.

Lemma RQDatagram_from_wire_single_field_witness :
  terminated_fields (B "foo" ++ [NUL]) = 1%nat
  /\ RQDatagram_from_wire RRQ (B "foo" ++ [NUL])
     = Ok (RQ RRQ (B "foo") [] [])
  /\ RQDatagram_from_wire RRQ (B "foo" ++ [NUL]) <> Err PayloadDecodeError.
Proof.
  apply (RQDatagram_from_wire_single_field RRQ (B "foo") []); reflexivity.
Defined.

(* ===================================================================== *)
(** ** OACK against the request parser *)
(* ===================================================================== *)

(** C4, as stated, fails: [OACKDatagram.from_wire] removes one trailing
    empty fragment where the request parser removes all of them. On the
    payload [a NUL b NUL NUL NUL] the OACK parser keeps an option with an
    empty name and an empty value that the request parser does not see. *)
Lemma OACK_differs_from_RQ_options :
  let payload := B "a" ++ [NUL] ++ B "b" ++ [NUL; NUL; NUL] in
  OACKDatagram_from_wire payload = Ok (OACK [(B "a", B "b"); ([], [])])
  /\ RQDatagram_from_wire RRQ (B "f" ++ [NUL] ++ B "octet" ++ [NUL] ++ payload)
     = Ok (RQ RRQ (B "f") (B "octet") [(B "a", B "b")])
  /\ OACK_options (split_nul payload) <> RQ_options (split_nul payload).
Proof.
  split; [reflexivity|]. split; [reflexivity|].
  vm_compute. discriminate.
Qed.

(** C4, amended. When at most one empty fragment ends the payload, the OACK
    parser and the request parser read the same options or raise the same
    error. *)
Theorem OACK_options_same_as_RQ (payload : bytes) :
  ends_with_empty (pop_trailing_empty (split_nul payload)) = false ->
  OACK_options (split_nul payload) = RQ_options (split_nul payload)
  /\ OACKDatagram_from_wire payload
     = (do options <- RQ_options (split_nul payload); Ok (OACK options))
  /\ forall cls filename mode,
      nul_free filename = true -> nul_free mode = true ->
      RQDatagram_from_wire cls (filename ++ NUL :: mode ++ NUL :: payload)
      = do options <- OACK_options (split_nul payload);
        Ok (RQDatagram cls filename mode options).
Proof.
  intros H. unfold OACK_options, RQ_options.
  assert (E : OACK_options (split_nul payload) = RQ_options (split_nul payload)).
  { unfold OACK_options, RQ_options. rewrite strip_is_pop by assumption.
    reflexivity. }
  split; [exact E|]. split.
  - rewrite OACKDatagram_from_wire_options, E. reflexivity.
  - intros cls filename mode Hf Hm.
    rewrite RQDatagram_from_wire_body by assumption.
    fold (OACK_options (split_nul payload)). rewrite E. reflexivity.
Qed.

Lemma OACK_options_same_as_RQ_witness :
  OACK_options (split_nul (B "blksize" ++ [NUL] ++ B "9" ++ [NUL]))
  = RQ_options (split_nul (B "blksize" ++ [NUL] ++ B "9" ++ [NUL])).
Proof.
  apply (OACK_options_same_as_RQ (B "blksize" ++ [NUL] ++ B "9" ++ [NUL])).
  reflexivity.
Defined.

(* ===================================================================== *)
(** ** Encoding then decoding *)
(* ===================================================================== *)

Lemma distinct_NoDup (l : list bytes) : distinct l = true <-> NoDup l.
Proof.
  induction l as [|x r IH]; simpl.
  - split; [constructor | reflexivity].
  - rewrite andb_true_iff, negb_true_iff, IH. split.
    + intros [Hx Hr]. constructor; [|assumption].
      intros Hin. apply not_true_iff_false in Hx. apply Hx.
      apply existsb_exists. exists x. split; [assumption|].
      apply bytes_eqb_refl.
    + intros H. inversion H as [|? ? Hx Hr]; subst. split; [|assumption].
      apply not_true_iff_false. intros He. apply existsb_exists in He.
      destruct He as [y [Hin Hy]]. apply bytes_eqb_eq in Hy. subst y.
      contradiction.
Qed.

Lemma stride2_chain_items (options : odict) :
  stride2 (chain_items options) = odict_keys options.
Proof.
  induction options as [|[k v] r IH]; simpl; [reflexivity|].
  rewrite IH. reflexivity.
Qed.

Lemma chain_items_odd (options : odict) :
  Nat.odd (length (chain_items options)) = false.
Proof.
  rewrite <- Nat.negb_even, chain_items_even. reflexivity.
Qed.

Lemma wf_options_fragments (options : odict) :
  wf_options options = true ->
  Forall (fun p => nul_free p = true) (chain_items options)
  /\ NoDup (odict_keys options).
Proof.
  unfold wf_options. rewrite andb_true_iff, distinct_NoDup.
  intros [Hall Hnd]. split; [|assumption]. clear Hnd.
  induction options as [|[k v] r IH]; simpl in *; [constructor|].
  rewrite !andb_true_iff in Hall. destruct Hall as [[Hk Hv] Hr].
  repeat constructor; auto.
Qed.

(** Parsing the fragments of a well-formed option list returns it. *)
Lemma parse_options_chain_items (options : odict) :
  NoDup (odict_keys options) ->
  parse_options (chain_items options) = Ok options.
Proof.
  intros Hnd. rewrite parse_options_ok.
  - rewrite chain_items_pairs. reflexivity.
  - apply chain_items_odd.
  - rewrite stride2_chain_items. exact Hnd.
Qed.

Lemma chain_items_nil_iff (options : odict) :
  odict_is_empty options = false -> chain_items options <> [].
Proof. destruct options as [|[k v] r]; simpl; congruence. Qed.

Lemma decode_opcode (hi lo : byte) (opcode : Z) (payload : bytes) :
  unpack_H [hi; lo] = Some opcode ->
  decode (hi :: lo :: payload) = TFTPDatagramFactory opcode payload.
Proof.
  intros H. unfold decode, split_opcode. cbn [firstn skipn].
  rewrite H. reflexivity.
Qed.

Lemma pack_H_rq_opcode (cls : rq_class) :
  exists lo, pack_H (rq_opcode cls) = Some [x00; lo]
             /\ unpack_H [x00; lo] = Some (rq_opcode cls).
Proof. destruct cls; eexists; split; reflexivity. Qed.

Lemma TFTPDatagramFactory_rq (cls : rq_class) (payload : bytes) :
  TFTPDatagramFactory (rq_opcode cls) payload = RQDatagram_from_wire cls payload.
Proof. destruct cls; reflexivity. Qed.

(** Requests. *)
Lemma decode_encode_RQ (cls : rq_class) (filename mode : bytes)
    (options : odict) :
  well_formed (RQ cls filename mode options) = true ->
  survives_decoding (RQ cls filename mode options) = true ->
  exists wire,
    encode (RQ cls filename mode options) = Ok wire
    /\ decode wire = Ok (RQ cls filename (lower mode) options).
Proof.
  cbn [well_formed survives_decoding].
  rewrite !andb_true_iff, negb_true_iff. intros [[Hf Hm] Ho] Hlast.
  destruct (wf_options_fragments options Ho) as [Hfrag Hnd].
  destruct (pack_H_rq_opcode cls) as [lo [Hpack Hunpack]].
  unfold encode. cbn [to_wire]. rewrite Hpack. cbn [lift_pack bind].
  destruct (odict_is_empty options) eqn:Hempty.
  - eexists. split; [reflexivity|].
    cbn [app]. rewrite (decode_opcode _ _ _ _ Hunpack).
    rewrite TFTPDatagramFactory_rq.
    change (filename ++ NUL :: mode ++ [NUL])
      with (filename ++ NUL :: mode ++ NUL :: []).
    rewrite RQDatagram_from_wire_body by assumption.
    destruct options; [reflexivity | discriminate].
  - eexists. split; [reflexivity|].
    cbn [app]. rewrite (decode_opcode _ _ _ _ Hunpack).
    rewrite TFTPDatagramFactory_rq.
    change (filename ++ NUL :: mode ++ NUL :: join_nul (chain_items options) ++ [NUL])
      with (filename ++ NUL :: mode ++ NUL :: (join_nul (chain_items options) ++ [NUL])).
    rewrite RQDatagram_from_wire_body by assumption.
    unfold RQ_options.
    rewrite split_join_nul_terminated
      by (try apply chain_items_nil_iff; assumption).
    rewrite strip_trailing_empty_app_empty.
    rewrite strip_trailing_empty_fixed by assumption.
    rewrite parse_options_chain_items by assumption. reflexivity.
Qed.

(** Option acknowledgements. *)
Lemma decode_encode_OACK (options : odict) :
  well_formed (OACK options) = true ->
  exists wire,
    encode (OACK options) = Ok wire /\ decode wire = Ok (OACK options).
Proof.
  cbn [well_formed]. intros Ho.
  destruct (wf_options_fragments options Ho) as [Hfrag Hnd].
  unfold encode. cbn [to_wire].
  change (pack_H OP_OACK) with (Some [x00; x06]). cbn [lift_pack bind].
  destruct (odict_is_empty options) eqn:Hempty.
  - eexists. split; [reflexivity|].
    destruct options; [reflexivity | discriminate].
  - eexists. split; [reflexivity|].
    cbn [app]. rewrite (decode_opcode x00 x06 OP_OACK) by reflexivity.
    change (TFTPDatagramFactory OP_OACK) with OACKDatagram_from_wire.
    rewrite OACKDatagram_from_wire_options. unfold OACK_options.
    rewrite split_join_nul_terminated
      by (try apply chain_items_nil_iff; assumption).
    rewrite pop_trailing_empty_app_empty.
    rewrite parse_options_chain_items by assumption. reflexivity.
Qed.

Lemma u16_range (n : Z) : u16 n = true -> 0 <= n <= 65535.
Proof.
  unfold u16. rewrite andb_true_iff, !Z.leb_le. tauto.
Qed.

Lemma pack_HH_u16 (opcode n : Z) (olo : byte) :
  pack_H opcode = Some [x00; olo] -> 0 <= n <= 65535 ->
  exists hi lo,
    pack_HH opcode n = Some [x00; olo; hi; lo]
    /\ unpack_H [hi; lo] = Some n.
Proof.
  intros Hop Hn. destruct (unpack_pack_H n Hn) as [hi [lo [Hp Hu]]].
  exists hi, lo. unfold pack_HH. rewrite Hop, Hp. auto.
Qed.

(** Data. *)
Lemma decode_encode_DATA (blocknum : Z) (data : bytes) :
  well_formed (DATA blocknum data) = true ->
  exists wire,
    encode (DATA blocknum data) = Ok wire
    /\ decode wire = Ok (DATA blocknum data).
Proof.
  cbn [well_formed]. intros Hn. apply u16_range in Hn.
  destruct (pack_HH_u16 OP_DATA blocknum x03 eq_refl Hn)
    as [hi [lo [Hp Hu]]].
  unfold encode. cbn [to_wire]. rewrite Hp. cbn [lift_pack bind].
  eexists. split; [reflexivity|].
  cbn [app]. rewrite (decode_opcode x00 x03 OP_DATA) by reflexivity.
  change (TFTPDatagramFactory OP_DATA) with DATADatagram_from_wire.
  unfold DATADatagram_from_wire. cbn [firstn skipn]. rewrite Hu.
  reflexivity.
Qed.

(** Acknowledgements. *)
Lemma decode_encode_ACK (blocknum : Z) :
  well_formed (ACK blocknum) = true ->
  exists wire,
    encode (ACK blocknum) = Ok wire /\ decode wire = Ok (ACK blocknum).
Proof.
  cbn [well_formed]. intros Hn. apply u16_range in Hn.
  destruct (pack_HH_u16 OP_ACK blocknum x04 eq_refl Hn)
    as [hi [lo [Hp Hu]]].
  unfold encode. cbn [to_wire]. rewrite Hp. cbn [lift_pack].
  eexists. split; [reflexivity|].
  rewrite (decode_opcode x00 x04 OP_ACK) by reflexivity.
  change (TFTPDatagramFactory OP_ACK) with ACKDatagram_from_wire.
  unfold ACKDatagram_from_wire. rewrite Hu. reflexivity.
Qed.

Lemma first_fragment_terminated (msg : bytes) :
  nul_free msg = true -> first_fragment (msg ++ [NUL]) = msg.
Proof.
  intros H. unfold first_fragment. rewrite split_nul_app by assumption.
  reflexivity.
Qed.

(** Errors. *)
Lemma decode_encode_ERROR (errorcode : Z) (errmsg : bytes) :
  well_formed (ERROR errorcode errmsg) = true ->
  survives_decoding (ERROR errorcode errmsg) = true ->
  exists wire,
    encode (ERROR errorcode errmsg) = Ok wire
    /\ decode wire = Ok (ERROR errorcode errmsg).
Proof.
  cbn [well_formed survives_decoding].
  rewrite !andb_true_iff, orb_true_iff, negb_true_iff, !Z.leb_le, Z.eqb_eq.
  intros [[H0 H8] Hmsg] Hsafe.
  assert (Hn : 0 <= errorcode <= 65535) by lia.
  destruct (pack_HH_u16 OP_ERROR errorcode x05 eq_refl Hn)
    as [hi [lo [Hp Hu]]].
  unfold encode. cbn [to_wire]. rewrite Hp. cbn [lift_pack bind].
  eexists. split; [reflexivity|].
  cbn [app]. rewrite (decode_opcode x00 x05 OP_ERROR) by reflexivity.
  change (TFTPDatagramFactory OP_ERROR) with ERRORDatagram_from_wire.
  unfold ERRORDatagram_from_wire. cbn [firstn skipn]. rewrite Hu.
  destruct (proj2 (errors_Some_iff errorcode) (conj H0 H8)) as [default E].
  rewrite E, first_fragment_terminated by assumption.
  destruct Hsafe as [Hne | Hzero].
  - rewrite Hne. reflexivity.
  - subst errorcode. injection E as <-.
    destruct errmsg; reflexivity.
Qed.

(** C1, as stated, fails. The error packet with code 1 and an empty message
    is well formed; it is encoded as [00 05 00 01 00], and decoding puts the
    default message of code 1 in place of the empty one. *)
Lemma decode_encode_counterexample :
  well_formed (ERROR 1 []) = true
  /\ encode (ERROR 1 []) = Ok [x00; x05; x00; x01; x00]
  /\ decode [x00; x05; x00; x01; x00] = Ok (ERROR 1 (B "File not found"))
  /\ decode [x00; x05; x00; x01; x00] <> Ok (lowercase_mode (ERROR 1 [])).
Proof.
  repeat split; discriminate.
Qed.

(** The other packet the decoder does not return: a request whose last
    option has an empty value loses that option. *)
Example decode_encode_empty_last_value :
  well_formed (RQ RRQ (B "f") (B "octet") [(B "tsize", [])]) = true
  /\ (do wire <- encode (RQ RRQ (B "f") (B "octet") [(B "tsize", [])]);
      decode wire)
     = Err OptionsDecodeError.
Proof. split; reflexivity. Qed.

(** C1, amended. A well-formed packet of any of the six types whose last
    option value (request) or message (error with a code other than 0) is
    not empty is encoded, and decoding what was encoded returns the packet
    with the mode of a request lowercased. *)
Theorem decode_encode (p : datagram) :
  well_formed p = true ->
  survives_decoding p = true ->
  exists wire,
    encode p = Ok wire /\ decode wire = Ok (lowercase_mode p).
Proof.
  intros Hwf Hsafe. destruct p as [cls f m o | o | n d | n | c msg].
  - apply decode_encode_RQ; assumption.
  - apply decode_encode_OACK; assumption.
  - apply decode_encode_DATA; assumption.
  - apply decode_encode_ACK; assumption.
  - apply decode_encode_ERROR; assumption.
Qed.

Lemma decode_encode_witness :
  exists wire,
    encode (RQ WRQ (B "boot.img") (B "octet")
              [(B "blksize", B "1024"); (B "timeout", B "3")]) = Ok wire
    /\ decode wire
       = Ok (RQ WRQ (B "boot.img") (B "octet")
               [(B "blksize", B "1024"); (B "timeout", B "3")]).
Proof.
  apply (decode_encode
           (RQ WRQ (B "boot.img") (B "octet")
              [(B "blksize", B "1024"); (B "timeout", B "3")]));
    reflexivity.
Defined.

(** The two conditions of the amended statement are needed: a well-formed
    packet that does not meet them is encoded, and decoding does not return
    it. *)
Lemma pairs_length (parts : list bytes) :
  (2 * length (pairs parts) <= length parts)%nat.
Proof.
  induction parts as [| x | name value r IH] using pair_induction;
    simpl; lia.
Qed.

Lemma chain_items_length (options : odict) :
  length (chain_items options) = (2 * length options)%nat.
Proof.
  induction options as [|[k v] r IH]; simpl; lia.
Qed.

Lemma strip_trailing_empty_shorter (parts : list bytes) :
  ends_with_empty parts = true ->
  (length (strip_trailing_empty parts) < length parts)%nat.
Proof.
  intros Hend. destruct (strip_trailing_empty_spec parts) as [[k Hk] Hstrip].
  destruct k as [|k].
  - simpl in Hk. rewrite app_nil_r in Hk. rewrite <- Hk in Hstrip. congruence.
  - rewrite Hk at 2. rewrite length_app. simpl. lia.
Qed.

Lemma errors_default_not_empty (code : Z) :
  1 <= code <= 8 -> exists c msg, errors code = Some (c :: msg).
Proof.
  intros H.
  assert (Hcases : code = 1 \/ code = 2 \/ code = 3 \/ code = 4 \/ code = 5
                   \/ code = 6 \/ code = 7 \/ code = 8) by lia.
  repeat (destruct Hcases as [-> | Hcases]; [eexists _, _; reflexivity|]).
  subst code. eexists _, _. reflexivity.
Qed.

Lemma decode_encode_only_if (p : datagram) :
  well_formed p = true ->
  survives_decoding p = false ->
  exists wire,
    encode p = Ok wire /\ decode wire <> Ok (lowercase_mode p).
Proof.
  destruct p as [cls f m o | o | n d | n | c msg];
    cbn [well_formed survives_decoding]; try discriminate.
  - rewrite !andb_true_iff, negb_false_iff. intros [[Hf Hm] Ho] Hlast.
    destruct (wf_options_fragments o Ho) as [Hfrag Hnd].
    destruct (pack_H_rq_opcode cls) as [lo [Hpack Hunpack]].
    unfold encode. cbn [to_wire]. rewrite Hpack. cbn [lift_pack bind].
    destruct o as [|kv o']; [discriminate|].
    cbn [odict_is_empty]. eexists. split; [reflexivity|].
    cbn [app]. rewrite (decode_opcode _ _ _ _ Hunpack).
    rewrite TFTPDatagramFactory_rq.
    change (f ++ NUL :: m ++ NUL :: join_nul (chain_items (kv :: o')) ++ [NUL])
      with (f ++ NUL :: m ++ NUL :: (join_nul (chain_items (kv :: o')) ++ [NUL])).
    rewrite RQDatagram_from_wire_body by assumption.
    unfold RQ_options.
    rewrite split_join_nul_terminated
      by (try apply chain_items_nil_iff; auto).
    rewrite strip_trailing_empty_app_empty.
    destruct (parse_options (strip_trailing_empty (chain_items (kv :: o'))))
      as [o2|e] eqn:E; cbn [bind lowercase_mode]; [|discriminate].
    intros H. assert (o2 = kv :: o') by (unfold RQDatagram in H; congruence).
    subst o2. apply parse_options_Ok_iff in E. destruct E as [_ [_ E]].
    pose proof (pairs_length (strip_trailing_empty (chain_items (kv :: o')))).
    pose proof (strip_trailing_empty_shorter _ Hlast).
    rewrite <- E in *. rewrite chain_items_length in *. lia.
  - rewrite !andb_true_iff, orb_false_iff, negb_false_iff, !Z.leb_le,
      Z.eqb_neq.
    intros [[H0 H8] Hmsg] [Hempty Hcode].
    apply is_empty_true in Hempty. subst msg.
    assert (Hn : 0 <= c <= 65535) by lia.
    destruct (pack_HH_u16 OP_ERROR c x05 eq_refl Hn) as [hi [lo [Hp Hu]]].
    unfold encode. cbn [to_wire]. rewrite Hp. cbn [lift_pack bind].
    eexists. split; [reflexivity|].
    cbn [app]. rewrite (decode_opcode x00 x05 OP_ERROR) by reflexivity.
    change (TFTPDatagramFactory OP_ERROR) with ERRORDatagram_from_wire.
    unfold ERRORDatagram_from_wire. cbn [firstn skipn]. rewrite Hu.
    destruct (errors_default_not_empty c) as [c0 [msg0 E]]; [lia|].
    rewrite E. cbn [lowercase_mode]. unfold ERRORDatagram.
    change (first_fragment [NUL]) with (@nil byte). cbn [is_empty].
    discriminate.
Qed.

(* ===================================================================== *)
(** ** The bootstrap layer: option processing *)
(* ===================================================================== *)

(** The assertions of [TestOptionProcessing.test_blksize]. *)
Example test_blksize :
  processOptions [(B "blksize", B "8")] = [(B "blksize", B "8")]
  /\ block_size (applyOptions MockSession
                   (processOptions [(B "blksize", B "8")])) = 8
  /\ processOptions [(B "blksize", B "foo")] = []
  /\ processOptions [(B "blksize", B "65464")]
     = [(B "blksize", intToBytes MAX_BLOCK_SIZE)]
  /\ block_size (applyOptions MockSession
                   (processOptions [(B "blksize", B "65464")]))
     = MAX_BLOCK_SIZE
  /\ processOptions [(B "blksize", B "65465")] = []
  /\ block_size (applyOptions MockSession
                   (processOptions [(B "blksize", B "65465")])) = 512
  /\ processOptions [(B "blksize", B "7")] = [].
Proof. vm_compute. repeat split. Qed.

(** The assertions of [test_timeout], [test_tsize] and
    [test_multiple_options]. *)
Example test_other_options :
  processOptions [(B "timeout", B "255")] = [(B "timeout", B "255")]
  /\ timeout (applyOptions MockSession
                (processOptions [(B "timeout", B "1")])) = [1; 1; 1]
  /\ processOptions [(B "timeout", B "0")] = []
  /\ processOptions [(B "timeout", B "256")] = []
  /\ tsize (applyOptions MockSession
              (processOptions [(B "tsize", B "1")])) = Some 1
  /\ processOptions [(B "tsize", B "-1")] = []
  /\ processOptions [(B "tsize", B "foo")] = []
  /\ processOptions
       [(B "blksize", B "1024"); (B "foobar", B "barbaz");
        (B "timeout", B "123")]
     = [(B "blksize", B "1024"); (B "timeout", B "123")].
Proof. vm_compute. repeat split. Qed.

(** The numeral of an integer reads back as that integer. *)
Lemma parse_int_intToBytes (n : Z) : parse_int (intToBytes n) = Some n.
Proof.
  unfold parse_int, intToBytes. rewrite string_of_list_byte_of_string.
  rewrite NilZero.isi.
  - simpl. rewrite DecimalZ.of_to. reflexivity.
  - destruct n; simpl; try discriminate.
    intros [= H]. apply (DecimalPos.Unsigned.to_uint_nonnil _ H).
  - destruct n; simpl; try discriminate.
    intros [= H]. apply (DecimalPos.Unsigned.to_uint_nonnil _ H).
Qed.

Lemma processOptions_blksize (val : bytes) :
  processOptions [(B "blksize", val)]
  = match option_blksize val with
    | Some actual_value => [(B "blksize", actual_value)]
    | None => []
    end.
Proof.
  cbn [processOptions]. rewrite bytes_eqb_refl.
  destruct (option_blksize val); reflexivity.
Qed.

Lemma applyOptions_blksize (s : Session) (n : Z) :
  block_size (applyOptions s [(B "blksize", intToBytes n)]) = n.
Proof.
  unfold applyOptions. cbn [fold_left]. unfold applyOption. cbn [fst snd].
  rewrite parse_int_intToBytes, bytes_eqb_refl. reflexivity.
Qed.

Lemma option_blksize_in_range (val : bytes) (n : Z) :
  parse_int val = Some n -> 8 <= n <= 65464 ->
  option_blksize val = Some (intToBytes n).
Proof.
  intros Hp Hn. unfold option_blksize, MAX_BLOCK_SIZE. rewrite Hp.
  replace ((n <? 8) || (65464 <? n)) with false
    by (symmetry; apply orb_false_iff; split; apply Z.ltb_ge; lia).
  rewrite Z.min_l by lia. reflexivity.
Qed.

Lemma option_blksize_out_of_range (val : bytes) (n : Z) :
  parse_int val = Some n -> n < 8 \/ 65464 < n -> option_blksize val = None.
Proof.
  intros Hp Hn. unfold option_blksize. rewrite Hp.
  replace ((n <? 8) || (65464 <? n)) with true; [reflexivity|].
  symmetry. apply orb_true_iff. rewrite !Z.ltb_lt. exact Hn.
Qed.

Lemma option_blksize_not_integer (val : bytes) :
  parse_int val = None -> option_blksize val = None.
Proof. intros Hp. unfold option_blksize. rewrite Hp. reflexivity. Qed.

(** C2, as stated, fails. The value 65465 is above 65464; it is not
    acknowledged as 65464 but dropped, and the session keeps the block size
    512, as [test_blksize] expects. *)
Lemma blksize_above_max_not_clamped :
  parse_int (B "65465") = Some 65465
  /\ processOptions [(B "blksize", B "65465")] = []
  /\ processOptions [(B "blksize", B "65465")]
     <> [(B "blksize", B "65464")]
  /\ block_size (applyOptions MockSession
                   (processOptions [(B "blksize", B "65465")])) = 512
  /\ block_size (applyOptions MockSession
                   (processOptions [(B "blksize", B "65465")])) <> 65464.
Proof.
  vm_compute. repeat split; discriminate.
Qed.

(** C2, amended. A [blksize] value strictly above 65464 is dropped: it is
    not in the acknowledged options, whatever other options come with it,
    and a session that had the block size 512 keeps it. *)
Theorem blksize_above_max_dropped (val : bytes) (n : Z)
    (before after : odict) :
  parse_int val = Some n -> 65464 < n ->
  processOptions [(B "blksize", val)] = []
  /\ block_size (applyOptions MockSession
                   (processOptions [(B "blksize", val)])) = 512
  /\ processOptions (before ++ (B "blksize", val) :: after)
     = processOptions before ++ processOptions after.
Proof.
  intros Hp Hn.
  assert (Hdrop : option_blksize val = None)
    by (apply (option_blksize_out_of_range val n); auto).
  rewrite processOptions_blksize, Hdrop.
  split; [reflexivity|]. split; [reflexivity|].
  induction before as [|[k v] r IH].
  - cbn [app processOptions]. rewrite bytes_eqb_refl, Hdrop. reflexivity.
  - cbn [app processOptions]. rewrite IH.
    destruct (if bytes_eqb k (B "blksize") then option_blksize v
              else if bytes_eqb k (B "timeout") then option_timeout v
              else if bytes_eqb k (B "tsize") then option_tsize v
              else None); reflexivity.
Qed.

Lemma blksize_above_max_dropped_witness :
  processOptions [(B "timeout", B "3"); (B "blksize", B "70000");
                  (B "tsize", B "45")]
  = [(B "timeout", B "3"); (B "tsize", B "45")].
Proof.
  destruct (blksize_above_max_dropped (B "70000") 70000
              [(B "timeout", B "3")] [(B "tsize", B "45")])
    as [_ [_ H]]; [reflexivity | lia |].
  exact H.
Defined.

(** C3. A [blksize] value is accepted exactly when it is an integer in
    [8, 65464]: the acknowledged options then hold [blksize] with the
    numeral of that integer and the block size of the session becomes that
    integer. A value that is not an integer, or an integer outside the
    range, is dropped: nothing is acknowledged and the session keeps the
    block size 512. *)
Theorem blksize_accepted_iff_in_range (val : bytes) :
  (forall n, parse_int val = Some n -> 8 <= n <= 65464 ->
     processOptions [(B "blksize", val)] = [(B "blksize", intToBytes n)]
     /\ block_size (applyOptions MockSession
                      (processOptions [(B "blksize", val)])) = n)
  /\ (parse_int val = None
      \/ (exists n, parse_int val = Some n /\ (n < 8 \/ 65464 < n)) ->
      processOptions [(B "blksize", val)] = []
      /\ block_size (applyOptions MockSession
                       (processOptions [(B "blksize", val)])) = 512).
Proof.
  split.
  - intros n Hp Hn. rewrite processOptions_blksize.
    rewrite (option_blksize_in_range val n Hp Hn).
    split; [reflexivity | apply applyOptions_blksize].
  - intros H. rewrite processOptions_blksize.
    assert (Hdrop : option_blksize val = None).
    { destruct H as [Hp | [n [Hp Hn]]].
      - apply option_blksize_not_integer. exact Hp.
      - apply (option_blksize_out_of_range val n); assumption. }
    rewrite Hdrop. split; reflexivity.
Qed.

Lemma blksize_accepted_iff_in_range_witness :
  (processOptions [(B "blksize", B "8")] = [(B "blksize", B "8")]
   /\ block_size (applyOptions MockSession
                    (processOptions [(B "blksize", B "8")])) = 8)
  /\ (processOptions [(B "blksize", B "65464")]
      = [(B "blksize", B "65464")])
  /\ processOptions [(B "blksize", B "7")] = []
  /\ processOptions [(B "blksize", B "65465")] = []
  /\ processOptions [(B "blksize", B "foo")] = [].
Proof.
  split; [|split; [|split; [|split]]].
  - apply (proj1 (blksize_accepted_iff_in_range (B "8")) 8);
      [reflexivity | lia].
  - apply (proj1 (blksize_accepted_iff_in_range (B "65464")) 65464);
      [reflexivity | lia].
  - apply (proj2 (blksize_accepted_iff_in_range (B "7"))).
    right. exists 7. split; [reflexivity | lia].
  - apply (proj2 (blksize_accepted_iff_in_range (B "65465"))).
    right. exists 65465. split; [reflexivity | lia].
  - apply (proj2 (blksize_accepted_iff_in_range (B "foo"))).
    left. reflexivity.
Defined.

(* ===================================================================== *)
(** ** The bootstrap layer: the TID guard *)
(* ===================================================================== *)

Lemma address_eqb_eq (a b : address) : address_eqb a b = true <-> a = b.
Proof.
  destruct a as [h p], b as [h' p']. unfold address_eqb. cbn [fst snd].
  rewrite andb_true_iff, String.eqb_eq, Z.eqb_eq. split.
  - intros [-> ->]. reflexivity.
  - intros [= -> ->]. auto.
Qed.

Lemma tid_unknown_wire_value :
  tid_unknown_wire
  = Ok ([x00; x05; x00; x05] ++ B "Unknown transfer ID" ++ [NUL]).
Proof. reflexivity. Qed.

(** C8. A datagram whose source address is not the bound remote TID makes
    the bootstrap write one ERROR packet with code 5 to that address; the
    bootstrap and its session are left as they were, so that the next
    datagram of the bound peer is handled as if nothing had arrived. *)
Theorem datagramReceived_unknown_tid (SessionState : Type)
    (handler : SessionState -> datagram -> SessionState * list bytes)
    (b : Bootstrap SessionState) (raw : bytes) (addr : address) :
  addr <> remote b ->
  exists wire,
    datagramReceived handler b raw addr = (b, [(wire, addr)])
    /\ decode wire = Ok (ERROR ERR_TID_UNKNOWN (B "Unknown transfer ID"))
    /\ forall raw',
        datagramReceived handler
          (fst (datagramReceived handler b raw addr)) raw' (remote b)
        = datagramReceived handler b raw' (remote b).
Proof.
  intros Hne.
  assert (Hguard : datagramReceived handler b raw addr
                   = (b, [([x00; x05; x00; x05] ++ B "Unknown transfer ID"
                             ++ [NUL], addr)])).
  { unfold datagramReceived.
    destruct (address_eqb addr (remote b)) eqn:E.
    - apply address_eqb_eq in E. contradiction.
    - rewrite tid_unknown_wire_value. reflexivity. }
  eexists. split; [exact Hguard|]. split; [reflexivity|].
  intros raw'. rewrite Hguard. reflexivity.
Qed.

(** The test [test_invalid_tid]: a session bound to port 65465 gets
    [ACKDatagram(123)] from port 1111. The session of the example counts
    the datagrams it was given and acknowledges each one. *)
Lemma datagramReceived_unknown_tid_witness :
  let handler := fun (count : Z) (d : datagram) =>
                   (count + 1, match to_wire (ACK count) with
                               | Ok w => [w]
                               | Err _ => []
                               end) in
  let b := {| remote := ("127.0.0.1"%string, 65465); session := 0 |} in
  exists wire,
    datagramReceived handler b [x00; x04; x00; x7b]
      ("127.0.0.1"%string, 1111)
    = (b, [(wire, ("127.0.0.1"%string, 1111))])
    /\ decode wire = Ok (ERROR ERR_TID_UNKNOWN (B "Unknown transfer ID")).
Proof.
  intros handler b.
  destruct (datagramReceived_unknown_tid Z handler b [x00; x04; x00; x7b]
              ("127.0.0.1"%string, 1111)) as [wire [H1 [H2 _]]].
  - discriminate.
  - exists wire. split; assumption.
Defined.

Example datagramReceived_bound_peer :
  let handler := fun (count : Z) (d : datagram) =>
                   (count + 1, match to_wire (ACK count) with
                               | Ok w => [w]
                               | Err _ => []
                               end) in
  let b := {| remote := ("127.0.0.1"%string, 65465); session := 0 |} in
  datagramReceived handler b ([x00; x03; x00; x01] ++ B "foobar")
    ("127.0.0.1"%string, 65465)
  = ({| remote := ("127.0.0.1"%string, 65465); session := 1 |},
     [([x00; x04; x00; x00], ("127.0.0.1"%string, 65465))]).
Proof. reflexivity. Qed.


(* ===================================================================== *)
(** ** Opcodes and dispatch *)
(* ===================================================================== *)

(** [split_opcode] raises a wire-protocol error exactly on a datagram
    shorter than two bytes, and no other error; otherwise the opcode is a
    16-bit number and nothing is lost: the packed opcode followed by the
    payload is the datagram. *)
Theorem split_opcode_spec (raw : bytes) :
  (split_opcode raw = Err WireProtocolError <-> (length raw < 2)%nat)
  /\ (forall e, split_opcode raw = Err e -> e = WireProtocolError)
  /\ (forall opcode payload,
        split_opcode raw = Ok (opcode, payload) ->
        0 <= opcode <= 65535
        /\ exists hdr, pack_H opcode = Some hdr /\ raw = hdr ++ payload).
Proof.
  unfold split_opcode.
  destruct raw as [|hi [|lo r]]; cbn [firstn skipn length unpack_H].
  - split; [split; [lia | reflexivity]|]. split; [congruence | discriminate].
  - split; [split; [lia | reflexivity]|]. split; [congruence | discriminate].
  - split; [split; [discriminate | lia]|]. split; [discriminate|].
    intros opcode payload H.
    assert (Hop : opcode = 256 * byte_to_Z hi + byte_to_Z lo) by congruence.
    assert (Hpl : payload = r) by congruence.
    subst. split.
    + pose proof (byte_to_Z_range hi). pose proof (byte_to_Z_range lo). lia.
    + exists [hi; lo]. split; [apply pack_unpack_H | reflexivity].
Qed.

Lemma split_opcode_spec_witness :
  split_opcode [x00] = Err WireProtocolError
  /\ exists hdr, pack_H 4 = Some hdr /\ [x00; x04; x00; x07] = hdr ++ [x00; x07].
Proof.
  split.
  - apply (proj1 (split_opcode_spec [x00])). simpl. lia.
  - destruct (split_opcode_spec [x00; x04; x00; x07]) as [_ [_ H]].
    apply (H 4 [x00; x07] eq_refl).
Defined.

(** The classes of errors each parser can raise. *)
Lemma RQDatagram_from_wire_errors (cls : rq_class) (payload : bytes)
    (e : tftp_error) :
  RQDatagram_from_wire cls payload = Err e ->
  e = PayloadDecodeError \/ e = OptionsDecodeError.
Proof.
  unfold RQDatagram_from_wire.
  destruct (split_nul payload) as [|f [|m rest]];
    try (intros [= <-]; auto).
  destruct (parse_options (strip_trailing_empty rest)) as [o|e'] eqn:E;
    cbn [bind]; [discriminate|].
  intros [= <-]. apply parse_options_Err_iff in E. tauto.
Qed.

Lemma OACKDatagram_from_wire_errors (payload : bytes) (e : tftp_error) :
  OACKDatagram_from_wire payload = Err e -> e = OptionsDecodeError.
Proof.
  unfold OACKDatagram_from_wire.
  destruct (parse_options (pop_trailing_empty (split_nul payload)))
    as [o|e'] eqn:E; cbn [bind]; [discriminate|].
  intros [= <-]. apply parse_options_Err_iff in E. tauto.
Qed.

Lemma DATADatagram_from_wire_errors (payload : bytes) (e : tftp_error) :
  DATADatagram_from_wire payload = Err e -> e = PayloadDecodeError.
Proof.
  unfold DATADatagram_from_wire.
  destruct (unpack_H (firstn 2 payload)); [discriminate | congruence].
Qed.

Lemma ACKDatagram_from_wire_errors (payload : bytes) (e : tftp_error) :
  ACKDatagram_from_wire payload = Err e -> e = PayloadDecodeError.
Proof.
  unfold ACKDatagram_from_wire.
  destruct (unpack_H payload); [discriminate | congruence].
Qed.

Lemma ERRORDatagram_from_wire_errors (payload : bytes) (e : tftp_error) :
  ERRORDatagram_from_wire payload = Err e ->
  e = PayloadDecodeError
  \/ exists c, e = InvalidErrorcodeError c
               /\ unpack_H (firstn 2 payload) = Some c /\ ~ 0 <= c <= 8.
Proof.
  unfold ERRORDatagram_from_wire.
  destruct (unpack_H (firstn 2 payload)) as [c|]; [|intros [= <-]; auto].
  destruct (errors c) as [default|] eqn:E; [discriminate|].
  intros [= <-]. right. exists c. split; [reflexivity|].
  split; [reflexivity|]. apply errors_None_iff. exact E.
Qed.

(** The dispatch table, one case per opcode. *)
Lemma TFTPDatagramFactory_cases (opcode : Z) (payload : bytes) :
  (opcode = 1
   /\ TFTPDatagramFactory opcode payload = RQDatagram_from_wire RRQ payload)
  \/ (opcode = 2
      /\ TFTPDatagramFactory opcode payload = RQDatagram_from_wire WRQ payload)
  \/ (opcode = 3
      /\ TFTPDatagramFactory opcode payload = DATADatagram_from_wire payload)
  \/ (opcode = 4
      /\ TFTPDatagramFactory opcode payload = ACKDatagram_from_wire payload)
  \/ (opcode = 5
      /\ TFTPDatagramFactory opcode payload = ERRORDatagram_from_wire payload)
  \/ (opcode = 6
      /\ TFTPDatagramFactory opcode payload = OACKDatagram_from_wire payload)
  \/ (~ 1 <= opcode <= 6
      /\ TFTPDatagramFactory opcode payload = Err (InvalidOpcodeError opcode)).
Proof.
  unfold TFTPDatagramFactory, OP_RRQ, OP_WRQ, OP_DATA, OP_ACK, OP_ERROR,
    OP_OACK.
  destruct (Z.eqb_spec opcode 1); [tauto|].
  destruct (Z.eqb_spec opcode 2); [tauto|].
  destruct (Z.eqb_spec opcode 3); [tauto|].
  destruct (Z.eqb_spec opcode 4); [tauto|].
  destruct (Z.eqb_spec opcode 5); [tauto|].
  destruct (Z.eqb_spec opcode 6); [tauto|].
  repeat right. split; [lia | reflexivity].
Qed.

(** The factory raises an invalid-opcode error exactly when the opcode is
    outside 1..6, and the error carries that opcode; no parser raises it. *)
Theorem TFTPDatagramFactory_invalid_opcode (opcode reported : Z)
    (payload : bytes) :
  TFTPDatagramFactory opcode payload = Err (InvalidOpcodeError reported)
  <-> reported = opcode /\ ~ 1 <= opcode <= 6.
Proof.
  destruct (TFTPDatagramFactory_cases opcode payload)
    as [[Ho H]|[[Ho H]|[[Ho H]|[[Ho H]|[[Ho H]|[[Ho H]|[Ho H]]]]]]];
    rewrite H; (split; [intros E | intros [Hrep Hr]; try lia]).
  - apply RQDatagram_from_wire_errors in E. destruct E; discriminate.
  - apply RQDatagram_from_wire_errors in E. destruct E; discriminate.
  - apply DATADatagram_from_wire_errors in E. discriminate.
  - apply ACKDatagram_from_wire_errors in E. discriminate.
  - apply ERRORDatagram_from_wire_errors in E.
    destruct E as [E|[c [E _]]]; discriminate.
  - apply OACKDatagram_from_wire_errors in E. discriminate.
  - split; [congruence | assumption].
  - subst reported. reflexivity.
Qed.

(** What an error of [decode] tells about the datagram: each of the five
    errors of [tftp.errors] comes from its own opcodes, and neither
    [struct.error] nor [IndexError] escapes from decoding. *)
Theorem decode_errors (raw : bytes) (e : tftp_error) :
  decode raw = Err e ->
  match e with
  | WireProtocolError => (length raw < 2)%nat
  | InvalidOpcodeError opcode =>
      unpack_H (firstn 2 raw) = Some opcode /\ ~ 1 <= opcode <= 6
  | PayloadDecodeError =>
      exists opcode,
        unpack_H (firstn 2 raw) = Some opcode /\ 1 <= opcode <= 5
  | InvalidErrorcodeError c =>
      unpack_H (firstn 2 raw) = Some 5
      /\ unpack_H (firstn 2 (skipn 2 raw)) = Some c /\ ~ 0 <= c <= 8
  | OptionsDecodeError =>
      exists opcode,
        unpack_H (firstn 2 raw) = Some opcode
        /\ (opcode = 1 \/ opcode = 2 \/ opcode = 6)
  | StructError => False
  | IndexError => False
  end.
Proof.
  unfold decode, split_opcode.
  destruct (unpack_H (firstn 2 raw)) as [opcode|] eqn:Hop; cbn [bind fst snd].
  - destruct (TFTPDatagramFactory_cases opcode (skipn 2 raw))
      as [[Ho H]|[[Ho H]|[[Ho H]|[[Ho H]|[[Ho H]|[[Ho H]|[Ho H]]]]]]];
      rewrite H; intros E.
    + apply RQDatagram_from_wire_errors in E.
      destruct E; subst e; exists opcode; split; auto; lia.
    + apply RQDatagram_from_wire_errors in E.
      destruct E; subst e; exists opcode; split; auto; lia.
    + apply DATADatagram_from_wire_errors in E.
      subst e. exists opcode. split; auto; lia.
    + apply ACKDatagram_from_wire_errors in E.
      subst e. exists opcode. split; auto; lia.
    + apply ERRORDatagram_from_wire_errors in E.
      destruct E as [E|[c [E [Hc Hr]]]]; subst e.
      * exists opcode. split; auto; lia.
      * subst opcode. auto.
    + apply OACKDatagram_from_wire_errors in E.
      subst e. exists opcode. split; auto.
    + injection E as <-. auto.
  - intros [= <-]. apply unpack_H_firstn_None. exact Hop.
Qed.

Lemma decode_errors_witness :
  unpack_H (firstn 2 [x00; x05; x00; x09]) = Some 5
  /\ unpack_H (firstn 2 (skipn 2 [x00; x05; x00; x09])) = Some 9
  /\ ~ 0 <= 9 <= 8.
Proof.
  apply (decode_errors [x00; x05; x00; x09] (InvalidErrorcodeError 9)).
  reflexivity.
Defined.

(** The datagram the factory returns belongs to the class of the opcode. *)
Theorem TFTPDatagramFactory_class (opcode : Z) (payload : bytes)
    (d : datagram) :
  TFTPDatagramFactory opcode payload = Ok d -> datagram_opcode d = opcode.
Proof.
  destruct (TFTPDatagramFactory_cases opcode payload)
    as [[Ho H]|[[Ho H]|[[Ho H]|[[Ho H]|[[Ho H]|[[Ho H]|[Ho H]]]]]]];
    rewrite H; subst; try discriminate.
  - unfold RQDatagram_from_wire.
    destruct (split_nul payload) as [|f [|m rest]]; try discriminate.
    destruct (parse_options (strip_trailing_empty rest)); cbn [bind];
      [|discriminate].
    intros [= <-]. reflexivity.
  - unfold RQDatagram_from_wire.
    destruct (split_nul payload) as [|f [|m rest]]; try discriminate.
    destruct (parse_options (strip_trailing_empty rest)); cbn [bind];
      [|discriminate].
    intros [= <-]. reflexivity.
  - unfold DATADatagram_from_wire.
    destruct (unpack_H (firstn 2 payload)); [|discriminate].
    intros [= <-]. reflexivity.
  - unfold ACKDatagram_from_wire.
    destruct (unpack_H payload); [|discriminate].
    intros [= <-]. reflexivity.
  - unfold ERRORDatagram_from_wire.
    destruct (unpack_H (firstn 2 payload)) as [c|]; [|discriminate].
    destruct (errors c); [|discriminate].
    intros [= <-]. reflexivity.
  - unfold OACKDatagram_from_wire.
    destruct (parse_options (pop_trailing_empty (split_nul payload)));
      cbn [bind]; [|discriminate].
    intros [= <-]. reflexivity.
Qed.

Lemma TFTPDatagramFactory_class_witness :
  datagram_opcode (ACK 123) = 4.
Proof.
  apply (TFTPDatagramFactory_class 4 [x00; x7b] (ACK 123)). reflexivity.
Defined.

(* ===================================================================== *)
(** ** Encoding *)
(* ===================================================================== *)

Lemma pack_H_inv (n : Z) (hdr : bytes) :
  pack_H n = Some hdr ->
  0 <= n <= 65535
  /\ exists hi lo, hdr = [hi; lo] /\ unpack_H [hi; lo] = Some n.
Proof.
  intros H. assert (Hn : 0 <= n <= 65535).
  { unfold pack_H in H.
    destruct ((0 <=? n) && (n <=? 65535)) eqn:E; [|discriminate].
    apply andb_true_iff in E. rewrite !Z.leb_le in E. exact E. }
  split; [exact Hn|].
  destruct (unpack_pack_H n Hn) as [hi [lo [Hp Hu]]].
  exists hi, lo. split; [congruence | exact Hu].
Qed.

Lemma pack_H_None_iff (n : Z) : pack_H n = None <-> ~ 0 <= n <= 65535.
Proof.
  split.
  - intros H Hn. destruct (unpack_pack_H n Hn) as [hi [lo [Hp _]]].
    congruence.
  - intros Hn. destruct (pack_H n) as [hdr|] eqn:E; [|reflexivity].
    apply pack_H_inv in E. tauto.
Qed.

Lemma pack_HH_opcode (olo : byte) (opcode n : Z) :
  pack_H opcode = Some [x00; olo] ->
  (forall hdr, pack_HH opcode n = Some hdr ->
     0 <= n <= 65535 /\ exists hi lo, hdr = [x00; olo; hi; lo])
  /\ (pack_HH opcode n = None <-> ~ 0 <= n <= 65535).
Proof.
  intros Hop. unfold pack_HH. rewrite Hop. split.
  - intros hdr H. destruct (pack_H n) as [x|] eqn:E; [|discriminate].
    apply pack_H_inv in E. destruct E as [Hn [hi [lo [-> _]]]].
    split; [exact Hn|]. exists hi, lo. injection H as <-. reflexivity.
  - rewrite <- pack_H_None_iff.
    destruct (pack_H n); split; congruence.
Qed.

Lemma join_nul_length (parts : list bytes) :
  parts <> [] ->
  S (length (join_nul parts))
  = list_sum (map (fun p => S (length p)) parts).
Proof.
  induction parts as [|p [|q r] IH]; intros Hne.
  - contradiction.
  - simpl. lia.
  - change (join_nul (p :: q :: r)) with (p ++ NUL :: join_nul (q :: r)).
    rewrite length_app. unfold list_sum in *. cbn [length map fold_right].
    assert (Hq : q :: r <> []) by discriminate.
    specialize (IH Hq). cbn [map fold_right] in IH. lia.
Qed.

Lemma chain_items_size (options : odict) :
  list_sum (map (fun p => S (length p)) (chain_items options))
  = options_size options.
Proof.
  unfold list_sum.
  induction options as [|[k v] r IH]; cbn [chain_items map fold_right
    options_size]; lia.
Qed.

(** [to_wire] begins with the opcode of the class, so that [split_opcode]
    finds it again, and the length of what it returns is [wire_size]:
    four bytes for an ACK, four and the data for DATA, the fields with a
    NUL each after the opcode for the other classes. *)
Theorem to_wire_opcode_and_size (d : datagram) (wire : bytes) :
  to_wire d = Ok wire ->
  (exists payload, split_opcode wire = Ok (datagram_opcode d, payload))
  /\ length wire = wire_size d.
Proof.
  assert (Hsize : forall o : odict,
             o <> [] ->
             S (length (join_nul (chain_items o))) = options_size o).
  { intros o Ho. rewrite join_nul_length.
    - apply chain_items_size.
    - destruct o as [|[k v] r]; [contradiction | discriminate]. }
  destruct d as [cls f m o | o | n data | n | c msg]; cbn [to_wire].
  - destruct (pack_H_rq_opcode cls) as [lo [Hp Hu]]. rewrite Hp.
    cbn [lift_pack bind datagram_opcode wire_size].
    destruct o as [|kv o'].
    + cbn [odict_is_empty]. intros Hw. injection Hw as Hw. subst wire. split.
      * unfold split_opcode. cbn [app firstn skipn]. rewrite Hu. eauto.
      * repeat (rewrite length_app || cbn [length app options_size]). lia.
    + pose proof (Hsize (kv :: o')) as Hj.
      assert (Hne : kv :: o' <> []) by discriminate. specialize (Hj Hne).
      remember (join_nul (chain_items (kv :: o'))) as j.
      cbn [odict_is_empty]. intros Hw. injection Hw as Hw. subst wire. split.
      * unfold split_opcode. cbn [app firstn skipn]. rewrite Hu. eauto.
      * repeat (rewrite length_app || cbn [length app]). lia.
  - change (pack_H OP_OACK) with (Some [x00; x06]).
    cbn [lift_pack bind datagram_opcode wire_size].
    destruct o as [|kv o'].
    + cbn [odict_is_empty]. intros Hw. injection Hw as Hw. subst wire.
      split; [eexists; reflexivity | reflexivity].
    + pose proof (Hsize (kv :: o')) as Hj.
      assert (Hne : kv :: o' <> []) by discriminate. specialize (Hj Hne).
      remember (join_nul (chain_items (kv :: o'))) as j.
      cbn [odict_is_empty]. intros Hw. injection Hw as Hw. subst wire.
      split; [eexists; reflexivity|].
      repeat (rewrite length_app || cbn [length app]). lia.
  - destruct (pack_HH_opcode x03 OP_DATA n eq_refl) as [Hh _].
    destruct (pack_HH OP_DATA n) as [hdr|]; [|discriminate].
    destruct (Hh hdr eq_refl) as [_ [hi [lo ->]]].
    cbn [lift_pack bind datagram_opcode wire_size]. intros Hw.
    injection Hw as Hw. subst wire.
    split; [eexists; reflexivity|]. cbn [app length]. lia.
  - destruct (pack_HH_opcode x04 OP_ACK n eq_refl) as [Hh _].
    destruct (pack_HH OP_ACK n) as [hdr|]; [|discriminate].
    destruct (Hh hdr eq_refl) as [_ [hi [lo ->]]].
    cbn [lift_pack datagram_opcode wire_size]. intros Hw.
    injection Hw as Hw. subst wire.
    split; [eexists; reflexivity | reflexivity].
  - destruct (pack_HH_opcode x05 OP_ERROR c eq_refl) as [Hh _].
    destruct (pack_HH OP_ERROR c) as [hdr|]; [|discriminate].
    destruct (Hh hdr eq_refl) as [_ [hi [lo ->]]].
    cbn [lift_pack bind datagram_opcode wire_size]. intros Hw.
    injection Hw as Hw. subst wire.
    split; [eexists; reflexivity|].
    repeat (rewrite length_app || cbn [length app]). lia.
Qed.

Lemma to_wire_opcode_and_size_witness :
  (exists payload,
     split_opcode ([x00; x02] ++ B "f" ++ [NUL] ++ B "octet" ++ [NUL]
                     ++ B "tsize" ++ [NUL] ++ B "45" ++ [NUL])
     = Ok (2, payload))
  /\ length ([x00; x02] ++ B "f" ++ [NUL] ++ B "octet" ++ [NUL]
               ++ B "tsize" ++ [NUL] ++ B "45" ++ [NUL]) = 19%nat.
Proof.
  apply (to_wire_opcode_and_size
           (RQ WRQ (B "f") (B "octet") [(B "tsize", B "45")])).
  reflexivity.
Defined.

(** [to_wire] fails only with [struct.error], and exactly when the block
    number or the error code it packs does not fit 16 bits; a request and
    an OACK are always encoded, and an ERROR is encoded whether or not its
    code is in the table. *)
Theorem to_wire_fails_iff (d : datagram) (e : tftp_error) :
  to_wire d = Err e
  <-> e = StructError
      /\ exists n, packed_number d = Some n /\ ~ 0 <= n <= 65535.
Proof.
  destruct d as [cls f m o | o | n data | n | c msg];
    cbn [to_wire packed_number].
  - destruct (pack_H_rq_opcode cls) as [lo [Hp _]]. rewrite Hp.
    cbn [lift_pack bind]. split.
    + destruct (odict_is_empty o); discriminate.
    + intros [_ [n [H _]]]. discriminate.
  - change (pack_H OP_OACK) with (Some [x00; x06]). cbn [lift_pack bind].
    split.
    + destruct (odict_is_empty o); discriminate.
    + intros [_ [n [H _]]]. discriminate.
  - destruct (pack_HH_opcode x03 OP_DATA n eq_refl) as [Hh Hnone].
    destruct (pack_HH OP_DATA n) as [hdr|]; cbn [lift_pack bind]; split.
    + discriminate.
    + intros [_ [n' [[= <-] Hn]]]. destruct (Hh hdr eq_refl). contradiction.
    + intros [= <-]. split; [reflexivity|]. exists n. split; [reflexivity|].
      apply Hnone. reflexivity.
    + intros [-> _]. reflexivity.
  - destruct (pack_HH_opcode x04 OP_ACK n eq_refl) as [Hh Hnone].
    destruct (pack_HH OP_ACK n) as [hdr|]; cbn [lift_pack]; split.
    + discriminate.
    + intros [_ [n' [[= <-] Hn]]]. destruct (Hh hdr eq_refl). contradiction.
    + intros [= <-]. split; [reflexivity|]. exists n. split; [reflexivity|].
      apply Hnone. reflexivity.
    + intros [-> _]. reflexivity.
  - destruct (pack_HH_opcode x05 OP_ERROR c eq_refl) as [Hh Hnone].
    destruct (pack_HH OP_ERROR c) as [hdr|]; cbn [lift_pack bind]; split.
    + discriminate.
    + intros [_ [n' [[= <-] Hn]]]. destruct (Hh hdr eq_refl). contradiction.
    + intros [= <-]. split; [reflexivity|]. exists c. split; [reflexivity|].
      apply Hnone. reflexivity.
    + intros [-> _]. reflexivity.
Qed.

Example to_wire_fails :
  to_wire (ACK 65536) = Err StructError
  /\ to_wire (DATA (-1) []) = Err StructError
  /\ to_wire (ERROR 9 (B "nine"))
     = Ok ([x00; x05; x00; x09] ++ B "nine" ++ [NUL]).
Proof. repeat split. Qed.

(* ===================================================================== *)
(** ** What decoding returns *)
(* ===================================================================== *)

Lemma chain_items_of_pairs (parts : list bytes) :
  Nat.even (length parts) = true -> chain_items (pairs parts) = parts.
Proof.
  induction parts as [| x | name value r IH] using pair_induction;
    simpl; intros H; try discriminate; [reflexivity|].
  rewrite IH by exact H. reflexivity.
Qed.

Lemma pairs_nul_free (parts : list bytes) :
  Forall (fun p => nul_free p = true) parts ->
  forallb (fun kv => nul_free (fst kv) && nul_free (snd kv)) (pairs parts)
  = true.
Proof.
  induction parts as [| x | name value r IH] using pair_induction;
    intros H; try reflexivity.
  inversion H as [|? ? Hn H']; subst. inversion H' as [|? ? Hv Hr]; subst.
  cbn [pairs forallb fst snd]. rewrite Hn, Hv, (IH Hr). reflexivity.
Qed.

(** The options read from well-separated fragments are well formed. *)
Lemma parse_options_wf (parts : list bytes) (options : odict) :
  Forall (fun p => nul_free p = true) parts ->
  parse_options parts = Ok options ->
  wf_options options = true /\ chain_items options = parts.
Proof.
  intros Hall H. apply parse_options_Ok_iff in H.
  destruct H as [Hodd [Hnd ->]].
  assert (Heven : Nat.even (length parts) = true)
    by (rewrite <- Nat.negb_odd, Hodd; reflexivity).
  split; [|apply chain_items_of_pairs; exact Heven].
  unfold wf_options. rewrite pairs_nul_free by assumption.
  rewrite <- stride2_pairs by assumption.
  apply distinct_NoDup in Hnd. rewrite Hnd. reflexivity.
Qed.

Lemma pop_trailing_empty_cases (parts : list bytes) :
  (ends_with_empty parts = false /\ pop_trailing_empty parts = parts)
  \/ parts = pop_trailing_empty parts ++ [[]].
Proof.
  unfold pop_trailing_empty, ends_with_empty.
  destruct (rev parts) as [|p r] eqn:E; [left; auto|].
  destruct (is_empty p) eqn:Hp; [|left; auto].
  right. apply is_empty_true in Hp. subst p.
  rewrite <- (rev_involutive parts), E. reflexivity.
Qed.

Lemma first_fragment_nul_free (s : bytes) :
  nul_free (first_fragment s) = true.
Proof.
  unfold first_fragment. pose proof (split_nul_fragments_nul_free s) as H.
  destruct (split_nul s); [reflexivity|]. inversion H. assumption.
Qed.

Lemma errors_nul_free (code : Z) (default : bytes) :
  errors code = Some default -> nul_free default = true.
Proof.
  intros H.
  assert (Hr : 0 <= code <= 8) by (apply errors_Some_iff; eauto).
  assert (Hcases : code = 0 \/ code = 1 \/ code = 2 \/ code = 3 \/ code = 4
                   \/ code = 5 \/ code = 6 \/ code = 7 \/ code = 8) by lia.
  repeat (destruct Hcases as [-> | Hcases];
          [injection H as <-; reflexivity|]).
  subst code. injection H as <-. reflexivity.
Qed.

(** What every parser returns is a well-formed packet that decoding does
    not change again. *)
Lemma from_wire_canonical (opcode : Z) (payload : bytes) (d : datagram) :
  TFTPDatagramFactory opcode payload = Ok d ->
  well_formed d = true /\ survives_decoding d = true
  /\ lowercase_mode d = d.
Proof.
  assert (Hrq : forall cls, RQDatagram_from_wire cls payload = Ok d ->
                  well_formed d = true /\ survives_decoding d = true
                  /\ lowercase_mode d = d).
  { intros cls. unfold RQDatagram_from_wire.
    pose proof (split_nul_fragments_nul_free payload) as Hfrag.
    destruct (split_nul payload) as [|f [|m rest]]; try discriminate.
    inversion Hfrag as [|? ? Hf Hfrag']; subst.
    inversion Hfrag' as [|? ? Hm Hrest]; subst.
    destruct (strip_trailing_empty_spec rest) as [[k Hk] Hend].
    assert (Hparts : Forall (fun p => nul_free p = true)
                       (strip_trailing_empty rest)).
    { rewrite Hk in Hrest. apply Forall_app in Hrest. tauto. }
    destruct (parse_options (strip_trailing_empty rest)) as [o|e] eqn:E;
      cbn [bind]; [|discriminate].
    destruct (parse_options_wf _ _ Hparts E) as [Hwf Hchain].
    intros [= <-]. unfold RQDatagram.
    cbn [well_formed survives_decoding lowercase_mode].
    rewrite Hf, lower_nul_free, Hm, Hwf, Hchain, Hend, lower_idempotent.
    auto. }
  destruct (TFTPDatagramFactory_cases opcode payload)
    as [[Ho H]|[[Ho H]|[[Ho H]|[[Ho H]|[[Ho H]|[[Ho H]|[Ho H]]]]]]];
    rewrite H; try discriminate; try apply Hrq.
  - unfold DATADatagram_from_wire.
    destruct (unpack_H (firstn 2 payload)) as [n|] eqn:E; [|discriminate].
    intros [= <-]. apply unpack_H_range in E. cbn. unfold u16.
    split; [|auto]. apply andb_true_iff. rewrite !Z.leb_le. exact E.
  - unfold ACKDatagram_from_wire.
    destruct (unpack_H payload) as [n|] eqn:E; [|discriminate].
    intros [= <-]. apply unpack_H_range in E. cbn. unfold u16.
    split; [|auto]. apply andb_true_iff. rewrite !Z.leb_le. exact E.
  - unfold ERRORDatagram_from_wire.
    destruct (unpack_H (firstn 2 payload)) as [c|]; [|discriminate].
    destruct (errors c) as [default|] eqn:E; [|discriminate].
    assert (Hr : 0 <= c <= 8) by (apply errors_Some_iff; eauto).
    assert (Hc : (0 <=? c) && (c <=? 8) = true)
      by (apply andb_true_iff; rewrite !Z.leb_le; exact Hr).
    clear Hrq.
    assert (Hfrag : nul_free (first_fragment (skipn 2 payload)) = true)
      by apply first_fragment_nul_free.
    remember (first_fragment (skipn 2 payload)) as frag.
    destruct (is_empty frag) eqn:Hmsg;
      intros [= <-]; unfold ERRORDatagram;
      cbn [well_formed survives_decoding lowercase_mode]; rewrite Hc.
    + rewrite (errors_nul_free c default E). split; [reflexivity|].
      split; [|reflexivity].
      destruct (Z.eqb_spec c 0) as [Hz|Hz]; [apply orb_true_r|].
      destruct (errors_default_not_empty c) as [c0 [msg0 E']]; [lia|].
      assert (default = c0 :: msg0) by congruence. subst default.
      reflexivity.
    + rewrite Hfrag, Hmsg. auto.
  - unfold OACKDatagram_from_wire.
    pose proof (split_nul_fragments_nul_free payload) as Hfrag.
    assert (Hparts : Forall (fun p => nul_free p = true)
                       (pop_trailing_empty (split_nul payload))).
    { destruct (pop_trailing_empty_cases (split_nul payload))
        as [[_ ->] | Hp]; [exact Hfrag|].
      rewrite Hp in Hfrag. apply Forall_app in Hfrag. tauto. }
    destruct (parse_options (pop_trailing_empty (split_nul payload)))
      as [o|e] eqn:E; cbn [bind]; [|discriminate].
    destruct (parse_options_wf _ _ Hparts E) as [Hwf _].
    intros [= <-]. unfold OACKDatagram. cbn. auto.
Qed.

Lemma decode_factory (raw : bytes) (d : datagram) :
  decode raw = Ok d ->
  exists opcode payload, TFTPDatagramFactory opcode payload = Ok d.
Proof.
  unfold decode. destruct (split_opcode raw) as [[opcode payload]|e];
    cbn [bind fst snd]; [eauto | discriminate].
Qed.

(** Encoding, then decoding, in the form of a function: the decoder
    returns the packet that was encoded, with a lowercase mode. *)
Lemma decode_after_encode (p : datagram) (wire : bytes) :
  well_formed p = true -> survives_decoding p = true ->
  encode p = Ok wire -> decode wire = Ok (lowercase_mode p).
Proof.
  intros Hwf Hs He.
  assert (H : exists w, encode p = Ok w /\ decode w = Ok (lowercase_mode p))
    by (destruct p;
        [ apply decode_encode_RQ | apply decode_encode_OACK
        | apply decode_encode_DATA | apply decode_encode_ACK
        | apply decode_encode_ERROR ]; assumption).
  destruct H as [w [Hw Hd]]. congruence.
Qed.

(** A decoded datagram keeps the invariants of the data model: no NUL in
    the file name, the mode, the message or an option, option names all
    different, a 16-bit block number, an error code of the table, a
    lowercase mode; the last option of a request has a value and an error
    with a code other than 0 has a message. *)
Theorem decode_well_formed (raw : bytes) (d : datagram) :
  decode raw = Ok d ->
  well_formed d = true
  /\ survives_decoding d = true
  /\ is_lowercase (rq_mode d) = true.
Proof.
  intros H. destruct (decode_factory raw d H) as [opcode [payload Hf]].
  destruct (from_wire_canonical opcode payload d Hf) as [Hwf [Hs Hl]].
  split; [exact Hwf|]. split; [exact Hs|].
  destruct d; try reflexivity. cbn [lowercase_mode] in Hl.
  cbn [rq_mode]. assert (Hm : lower mode = mode) by congruence.
  rewrite <- Hm. apply lower_is_lowercase.
Qed.

Lemma decode_well_formed_witness :
  well_formed (RQ RRQ (B "f") (B "octet") [(B "blksize", B "8")]) = true
  /\ survives_decoding (RQ RRQ (B "f") (B "octet") [(B "blksize", B "8")])
     = true
  /\ is_lowercase (B "octet") = true.
Proof.
  apply (decode_well_formed
           ([x00; x01] ++ B "f" ++ [NUL] ++ B "OCTET" ++ [NUL]
              ++ B "blksize" ++ [NUL] ++ B "8" ++ [NUL; NUL])).
  reflexivity.
Defined.

(** Whatever [decode] accepts, [to_wire] encodes, and decoding the result
    returns the same datagram: one pass through the decoder brings a
    datagram to a form that the codec keeps. *)
Theorem decode_encode_decode (raw : bytes) (d : datagram) :
  decode raw = Ok d ->
  exists wire, encode d = Ok wire /\ decode wire = Ok d.
Proof.
  intros H. destruct (decode_factory raw d H) as [opcode [payload Hf]].
  destruct (from_wire_canonical opcode payload d Hf) as [Hwf [Hs Hl]].
  assert (He : exists w, encode d = Ok w /\ decode w = Ok (lowercase_mode d))
    by (destruct d;
        [ apply decode_encode_RQ | apply decode_encode_OACK
        | apply decode_encode_DATA | apply decode_encode_ACK
        | apply decode_encode_ERROR ]; assumption).
  rewrite Hl in He. exact He.
Qed.

Lemma decode_encode_decode_witness :
  exists wire,
    encode (ERROR 3 (B "Disk full or allocation exceeded")) = Ok wire
    /\ decode wire = Ok (ERROR 3 (B "Disk full or allocation exceeded")).
Proof.
  apply (decode_encode_decode [x00; x05; x00; x03]). reflexivity.
Defined.

Lemma to_wire_RQ_fields (cls : rq_class) (filename mode : bytes)
    (options : odict) (wire : bytes) :
  nul_free filename = true -> nul_free mode = true ->
  to_wire (RQ cls filename mode options) = Ok wire ->
  exists rest, split_nul (skipn 2 wire) = filename :: mode :: rest.
Proof.
  intros Hf Hm. cbn [to_wire].
  destruct (pack_H_rq_opcode cls) as [lo [Hp _]]. rewrite Hp.
  cbn [lift_pack bind].
  destruct (odict_is_empty options); intros Hw; injection Hw as Hw;
    subst wire; cbn [app skipn];
    rewrite split_nul_app by assumption;
    rewrite split_nul_app by assumption; eauto.
Qed.

(** Two well-formed packets with the same encoding are the same packet:
    the wire form keeps the class, every field and the order of the
    options. *)
Theorem encode_injective (p q : datagram) (wire : bytes) :
  well_formed p = true -> survives_decoding p = true ->
  well_formed q = true -> survives_decoding q = true ->
  encode p = Ok wire -> encode q = Ok wire ->
  p = q.
Proof.
  intros Hp Hsp Hq Hsq Ep Eq.
  pose proof (decode_after_encode p wire Hp Hsp Ep) as Dp.
  pose proof (decode_after_encode q wire Hq Hsq Eq) as Dq.
  assert (L : lowercase_mode p = lowercase_mode q) by congruence.
  destruct p as [cls f m o | o | n d | n | c msg],
           q as [cls' f' m' o' | o' | n' d' | n' | c' msg'];
    cbn [lowercase_mode] in L; try discriminate; try exact L.
  cbn [well_formed] in Hp, Hq. rewrite !andb_true_iff in Hp, Hq.
  destruct Hp as [[Hf Hm] _], Hq as [[Hf' Hm'] _].
  destruct (to_wire_RQ_fields cls f m o wire Hf Hm Ep) as [rest Hs].
  destruct (to_wire_RQ_fields cls' f' m' o' wire Hf' Hm' Eq) as [rest' Hs'].
  assert (m = m') by congruence. congruence.
Qed.

Lemma encode_injective_witness :
  ACK 7 = ACK (263 - 256).
Proof.
  apply (encode_injective (ACK 7) (ACK (263 - 256)) [x00; x04; x00; x07]);
    reflexivity.
Defined.

(* ===================================================================== *)
(** ** What the parsers tolerate *)
(* ===================================================================== *)

Lemma split_nul_snoc_nul (s : bytes) :
  split_nul (s ++ [NUL]) = split_nul s ++ [[]].
Proof.
  induction s as [|c r IH]; [reflexivity|].
  cbn [app split_nul]. rewrite IH.
  destruct (Byte.eqb c NUL); [reflexivity|].
  pose proof (split_nul_not_nil r) as Hne.
  destruct (split_nul r); [contradiction | reflexivity].
Qed.

Lemma nul_free_app (s t : bytes) :
  nul_free (s ++ t) = nul_free s && nul_free t.
Proof. unfold nul_free. apply forallb_app. Qed.

Lemma RQDatagram_from_wire_snoc_nul (cls : rq_class) (payload : bytes) :
  nul_free payload = false ->
  RQDatagram_from_wire cls (payload ++ [NUL])
  = RQDatagram_from_wire cls payload.
Proof.
  intros Hnul. unfold RQDatagram_from_wire. rewrite split_nul_snoc_nul.
  destruct (split_nul payload) as [|f [|m rest]] eqn:E.
  - exfalso. exact (split_nul_not_nil payload E).
  - exfalso. assert (H : nul_free payload = true)
      by (apply split_nul_length_one; rewrite E; simpl; lia).
    congruence.
  - cbn [app]. rewrite strip_trailing_empty_app_empty. reflexivity.
Qed.

(** The workaround for the Cisco 7941: NUL bytes added at the end of a
    request body that has a NUL already change nothing in what
    [RQDatagram.from_wire] returns or raises. *)
Theorem RQDatagram_from_wire_trailing_nuls (cls : rq_class)
    (payload : bytes) (k : nat) :
  nul_free payload = false ->
  RQDatagram_from_wire cls (payload ++ repeat NUL k)
  = RQDatagram_from_wire cls payload.
Proof.
  intros Hnul. induction k as [|k IH].
  - cbn [repeat]. rewrite app_nil_r. reflexivity.
  - cbn [repeat].
    rewrite repeat_cons, app_assoc, RQDatagram_from_wire_snoc_nul;
      [exact IH|].
    rewrite nul_free_app, Hnul. reflexivity.
Qed.

Lemma RQDatagram_from_wire_trailing_nuls_witness :
  RQDatagram_from_wire RRQ
    ((B "f" ++ [NUL] ++ B "octet" ++ [NUL] ++ B "blksize" ++ [NUL] ++ B "8")
       ++ repeat NUL 4)
  = Ok (RQ RRQ (B "f") (B "octet") [(B "blksize", B "8")]).
Proof.
  rewrite (RQDatagram_from_wire_trailing_nuls RRQ
             (B "f" ++ [NUL] ++ B "octet" ++ [NUL] ++ B "blksize" ++ [NUL]
                ++ B "8") 4); reflexivity.
Defined.

(** The mode of a request is read without regard to case: the same body
    with the mode in another case gives the same datagram or the same
    error. *)
Theorem RQDatagram_from_wire_mode_case (cls : rq_class)
    (filename mode mode' remainder : bytes) :
  nul_free filename = true -> nul_free mode = true ->
  lower mode' = lower mode ->
  RQDatagram_from_wire cls (filename ++ NUL :: mode' ++ NUL :: remainder)
  = RQDatagram_from_wire cls (filename ++ NUL :: mode ++ NUL :: remainder).
Proof.
  intros Hf Hm Hl.
  assert (Hm' : nul_free mode' = true)
    by (rewrite <- lower_nul_free, Hl, lower_nul_free; exact Hm).
  rewrite !RQDatagram_from_wire_body by assumption.
  unfold RQDatagram. rewrite Hl. reflexivity.
Qed.

Lemma RQDatagram_from_wire_mode_case_witness :
  RQDatagram_from_wire WRQ (B "f" ++ NUL :: B "NetAscii" ++ NUL :: [])
  = RQDatagram_from_wire WRQ (B "f" ++ NUL :: B "netascii" ++ NUL :: []).
Proof.
  apply (RQDatagram_from_wire_mode_case WRQ (B "f") (B "netascii")
           (B "NetAscii") []); reflexivity.
Defined.

(** An ERROR message ends at its first NUL: whatever follows it is not
    looked at, and the NUL itself may be missing. *)
Theorem ERRORDatagram_from_wire_ignores_tail (hi lo : byte)
    (msg tail : bytes) :
  nul_free msg = true ->
  ERRORDatagram_from_wire (hi :: lo :: msg ++ NUL :: tail)
  = ERRORDatagram_from_wire (hi :: lo :: msg ++ [NUL])
  /\ ERRORDatagram_from_wire (hi :: lo :: msg ++ [NUL])
     = ERRORDatagram_from_wire (hi :: lo :: msg).
Proof.
  intros Hmsg. unfold ERRORDatagram_from_wire. cbn [firstn skipn].
  assert (H1 : first_fragment (msg ++ NUL :: tail) = msg)
    by (unfold first_fragment; rewrite split_nul_app by assumption;
        reflexivity).
  assert (H2 : first_fragment (msg ++ [NUL]) = msg)
    by (apply first_fragment_terminated; assumption).
  assert (H3 : first_fragment msg = msg)
    by (unfold first_fragment; rewrite split_nul_nul_free by assumption;
        reflexivity).
  rewrite H1, H2, H3. split; reflexivity.
Qed.

Lemma ERRORDatagram_from_wire_ignores_tail_witness :
  ERRORDatagram_from_wire
    (x00 :: x01 :: B "gone" ++ NUL :: B "more" ++ [NUL])
  = ERRORDatagram_from_wire (x00 :: x01 :: B "gone" ++ [NUL]).
Proof.
  apply (ERRORDatagram_from_wire_ignores_tail x00 x01 (B "gone")
           (B "more" ++ [NUL])).
  reflexivity.
Defined.

(* ===================================================================== *)
(** ** OACK, ACK and [from_code] *)
(* ===================================================================== *)

(** [OACKDatagram.from_wire] never raises a payload-decode error. It
    removes one trailing empty fragment, raises an options-decode error
    exactly when the number of fragments left is odd or a name occurs
    twice, and otherwise returns the name/value pairs in order; the empty
    payload gives no option. *)
Theorem OACKDatagram_from_wire_spec (payload : bytes) :
  let parts := pop_trailing_empty (split_nul payload) in
  ((ends_with_empty (split_nul payload) = false /\ parts = split_nul payload)
   \/ split_nul payload = parts ++ [[]])
  /\ (forall e,
        OACKDatagram_from_wire payload = Err e
        <-> e = OptionsDecodeError
            /\ (Nat.odd (length parts) = true \/ ~ NoDup (stride2 parts)))
  /\ (Nat.odd (length parts) = false -> NoDup (stride2 parts) ->
      OACKDatagram_from_wire payload = Ok (OACK (pairs parts)))
  /\ OACKDatagram_from_wire [] = Ok (OACK []).
Proof.
  intros parts. split; [apply pop_trailing_empty_cases|].
  rewrite OACKDatagram_from_wire_options. unfold OACK_options. fold parts.
  split; [|split; [|reflexivity]].
  - intros e. rewrite <- parse_options_Err_iff.
    destruct (parse_options parts); cbn [bind]; split; congruence.
  - intros Hodd Hnd. rewrite parse_options_ok by assumption. reflexivity.
Qed.

Lemma OACKDatagram_from_wire_spec_witness :
  OACKDatagram_from_wire
    (B "blksize" ++ [NUL] ++ B "9" ++ [NUL] ++ B "tsize" ++ [NUL]
       ++ B "45" ++ [NUL])
  = Ok (OACK [(B "blksize", B "9"); (B "tsize", B "45")]).
Proof.
  destruct (OACKDatagram_from_wire_spec
              (B "blksize" ++ [NUL] ++ B "9" ++ [NUL] ++ B "tsize" ++ [NUL]
                 ++ B "45" ++ [NUL])) as [_ [_ [H _]]].
  apply H.
  - reflexivity.
  - simpl. repeat constructor; simpl; intuition discriminate.
Defined.

(** Encoding the datagram that [ACKDatagram.from_wire] reads from two
    bytes gives the opcode 4 followed by those two bytes. *)
Theorem ACKDatagram_reencode (payload : bytes) :
  length payload = 2%nat ->
  (do d <- ACKDatagram_from_wire payload; to_wire d)
  = Ok ([x00; x04] ++ payload).
Proof.
  destruct payload as [|hi [|lo [|c r]]]; try discriminate. intros _.
  unfold ACKDatagram_from_wire, ACKDatagram. cbn [unpack_H bind to_wire].
  unfold pack_HH. rewrite pack_unpack_H. reflexivity.
Qed.

Lemma ACKDatagram_reencode_witness :
  (do d <- ACKDatagram_from_wire [xff; xfe]; to_wire d)
  = Ok [x00; x04; xff; xfe].
Proof.
  apply (ACKDatagram_reencode [xff; xfe]). reflexivity.
Defined.

(** [ERRORDatagram.from_code] raises an invalid-errorcode error, with the
    code, exactly when the code is outside 0..8. For a code of the table
    and no message it builds the datagram with the default message, and
    that datagram, encoded and decoded, comes back as it was. *)
Theorem ERRORDatagram_from_code_spec (errorcode : Z) (errmsg : option bytes) :
  (forall e,
     ERRORDatagram_from_code errorcode errmsg = Err e
     <-> e = InvalidErrorcodeError errorcode /\ ~ 0 <= errorcode <= 8)
  /\ (0 <= errorcode <= 8 ->
      exists default wire,
        errors errorcode = Some default
        /\ ERRORDatagram_from_code errorcode None
           = Ok (ERROR errorcode default)
        /\ to_wire (ERROR errorcode default) = Ok wire
        /\ decode wire = Ok (ERROR errorcode default)).
Proof.
  unfold ERRORDatagram_from_code, ERRORDatagram. split.
  - intros e. destruct (errors errorcode) as [default|] eqn:E.
    + assert (Hr : 0 <= errorcode <= 8) by (apply errors_Some_iff; eauto).
      split; [destruct errmsg; discriminate | tauto].
    + apply errors_None_iff in E. split.
      * intros [= <-]. auto.
      * intros [-> _]. reflexivity.
  - intros Hr. destruct (proj2 (errors_Some_iff errorcode) Hr)
      as [default E].
    rewrite E.
    destruct (decode_encode_ERROR errorcode default) as [wire [He Hd]].
    + cbn [well_formed]. rewrite (errors_nul_free errorcode default E).
      replace ((0 <=? errorcode) && (errorcode <=? 8)) with true;
        [reflexivity|].
      symmetry. apply andb_true_iff. rewrite !Z.leb_le. exact Hr.
    + cbn [survives_decoding].
      destruct (Z.eqb_spec errorcode 0) as [Hz|Hz]; [apply orb_true_r|].
      destruct (errors_default_not_empty errorcode) as [c0 [m0 E']]; [lia|].
      assert (default = c0 :: m0) by congruence. subst default. reflexivity.
    + exists default, wire. auto.
Qed.

Lemma ERRORDatagram_from_code_spec_witness :
  exists default wire,
    errors 8 = Some default
    /\ ERRORDatagram_from_code 8 None = Ok (ERROR 8 default)
    /\ to_wire (ERROR 8 default) = Ok wire
    /\ decode wire = Ok (ERROR 8 default).
Proof.
  apply (proj2 (ERRORDatagram_from_code_spec 8 None)). lia.
Defined.
